(** * Web result resolution and capture pipeline (playwrightass1.py)

    A shallow embedding of [src/pyautogui/playwrightass1.py]:

    - [extract_bing_redirect], the redirect resolver, as a function in an
      error monad over the three [urllib.parse] operations it calls;
    - [main], the session orchestrator, as a finite tree over the calls it
      issues to Playwright, the clock, the file system and the console; a
      run is the trace of those calls for one behaviour of the
      environment.

    Python [str] values are modelled as [string], read as the UTF-8 bytes
    of the text.  Searching for and slicing at ASCII patterns commutes with
    that encoding; the operations that do not ([str.lower], [str.strip],
    the [urllib.parse] functions) are operations of the interface [PyLib]. *)

From Stdlib Require Import ZArith String Ascii List Lia Bool.
From stdpp Require Import base option list gmap strings pretty.

Open Scope string_scope.
Open Scope list_scope.
Open Scope Z_scope.

(** ** Exceptions and fallible values *)

(** The two exception classes the program tells apart: Playwright's
    [TimeoutError], and every other subclass of [Exception].  The payload
    is [str(e)]. *)
Inductive exn : Type :=
| PlaywrightTimeoutError (msg : string)
| Exception (msg : string).

Definition exn_str (e : exn) : string :=
  match e with
  | PlaywrightTimeoutError m => m
  | Exception m => m
  end.

(** The outcome of evaluating a Python expression. *)
Inductive result (A : Type) : Type :=
| Ok (a : A)
| Raised (e : exn).
Arguments Ok {A} a.
Arguments Raised {A} e.

Module Res.
Definition bind {A B} (r : result A) (f : A -> result B) : result B :=
  match r with
  | Ok a => f a
  | Raised e => Raised e
  end.

(** [try: r  except Exception: h] *)
Definition try_except {A} (r : result A) (h : exn -> result A) : result A :=
  match r with
  | Ok a => Ok a
  | Raised e => h e
  end.
End Res.

(** ** Python string operations *)

Module Str.

(** Truthiness of a [str]: non-empty. *)
Definition truthy (s : string) : bool :=
  match s with
  | EmptyString => false
  | String _ _ => true
  end.

(** [s.startswith(p)] *)
Fixpoint startswith (p s : string) : bool :=
  match p, s with
  | EmptyString, _ => true
  | String a p', String b s' => if Ascii.eqb a b then startswith p' s' else false
  | String _ _, EmptyString => false
  end.

(** Position of the first occurrence of [sub] in [s]. *)
Fixpoint index_of (sub s : string) : option nat :=
  if startswith sub s then Some 0%nat
  else match s with
       | EmptyString => None
       | String _ s' => S <$> index_of sub s'
       end.

(** [s.find(sub)]: the position, or [-1]. *)
Definition find (sub s : string) : Z :=
  match index_of sub s with
  | Some i => Z.of_nat i
  | None => -1
  end.

(** [sub in s] *)
Definition contains (sub s : string) : bool :=
  match index_of sub s with
  | Some _ => true
  | None => false
  end.

Fixpoint drop (n : nat) (s : string) : string :=
  match n, s with
  | O, _ => s
  | S n', String _ s' => drop n' s'
  | S _, EmptyString => EmptyString
  end.

Fixpoint take (n : nat) (s : string) : string :=
  match n, s with
  | O, _ => EmptyString
  | S n', String a s' => String a (take n' s')
  | S _, EmptyString => EmptyString
  end.

(** A slice bound as Python clamps it: negative bounds count from the
    end, and everything is cut to [0 .. len(s)]. *)
Definition clamp (i : Z) (s : string) : nat :=
  let len := Z.of_nat (String.length s) in
  Z.to_nat (if i <? 0 then Z.max 0 (i + len) else Z.min i len).

(** [s[i:]] *)
Definition slice_from (s : string) (i : Z) : string := drop (clamp i s) s.

(** [s[:j]] *)
Definition slice_to (s : string) (j : Z) : string := take (clamp j s) s.

(** [s.replace(old, new)] for one-character [old] and [new]. *)
Fixpoint replace (old new : ascii) (s : string) : string :=
  match s with
  | EmptyString => EmptyString
  | String a s' => String (if Ascii.eqb a old then new else a) (replace old new s')
  end.

(** [sep.join(l)] *)
Fixpoint join (sep : string) (l : list string) : string :=
  match l with
  | [] => EmptyString
  | [x] => x
  | x :: l' => x +:+ sep +:+ join sep l'
  end.

End Str.

(** ** The library interface *)

(** The six fields of [urllib.parse.ParseResult]. *)
Record ParseResult : Type := {
  scheme : string;
  netloc : string;
  path : string;
  params : string;
  query : string;
  fragment : string
}.

(** The operations of the Python runtime and of [urllib.parse] that the
    program calls on strings.  [urlparse] raises [ValueError] on some
    malformed network locations; [parse_qs] (with its default arguments)
    and [unquote] return on every [str]. *)
Class PyLib : Type := {
  str_lower : string -> string;
  str_strip : string -> string;
  urlparse : string -> result ParseResult;
  parse_qs : string -> gmap string (list string);
  unquote : string -> string
}.

(** ** The redirect resolver *)

Section Resolver.
Context {L : PyLib}.

(** Lines 41-47: the text after the first [u=] up to the next [&]. *)
Definition u_substring (href : string) : string :=
  let start := Str.find "u=" href + 2 in
  let rest := Str.slice_from href start in
  let end_ := Str.find "&" rest in
  if negb (end_ =? -1) then Str.slice_to rest end_ else rest.

(** Line 36-37: [qs['u'][0]] when ['u' in qs and qs['u']]. *)
Definition u_param (qs : gmap string (list string)) : option string :=
  match qs !! "u" with
  | Some (v :: _) => Some v
  | _ => None
  end.

(** Lines 33-48, the body of the [try]: [Ok (Some v)] is [return v],
    [Ok None] is falling out of the block. *)
Definition extract_bing_redirect_try (href : string) : result (option string) :=
  Res.bind (urlparse href) (fun parsed =>
  let qs := parse_qs (query parsed) in
  match u_param qs with
  | Some v => Ok (Some (unquote v))
  | None =>
      if Str.contains "u=" href then Ok (Some (unquote (u_substring href)))
      else Ok None
  end).

(** Lines 25-51. *)
Definition extract_bing_redirect (href : string) : result string :=
  if negb (Str.truthy href) then Ok href
  else
    Res.bind
      (Res.try_except (extract_bing_redirect_try href) (fun _ => Ok None))
      (fun returned =>
         match returned with
         | Some v => Ok v
         | None => Ok href
         end).

(** The call of line 157: [chosen_href] may be [None], which line 30
    returns as it is. *)
Definition extract_bing_redirect_value (href : option string)
  : result (option string) :=
  match href with
  | None => Ok None
  | Some h => Res.bind (extract_bing_redirect h) (fun t => Ok (Some t))
  end.

(** What parsing [href] as a URL yields for the query parameter [u]. *)
Definition parsed_u (href : string) : option string :=
  match urlparse href with
  | Ok parsed => u_param (parse_qs (query parsed))
  | Raised _ => None
  end.

End Resolver.

(** ** A reference implementation of the library interface *)

(** CPython 3.11's [str.lower], [str.strip] and [urllib.parse], followed
    function by function on the byte model of [str].  It is exact on ASCII
    text whose percent escapes decode to ASCII and whose network location
    has no bracket pair: case mapping and white space outside ASCII, the
    replacement of undecodable UTF-8 by U+FFFD, and the address check of a
    bracketed host are not modelled.  The general theorems below hold for
    every [PyLib]; this instance supplies concrete runs. *)
Module CPython.

Definition code (a : ascii) : N := N_of_ascii a.

Definition between (lo hi : N) (a : ascii) : bool :=
  ((lo <=? code a) && (code a <=? hi))%N.

Definition is_upper : ascii -> bool := between 65 90.
Definition is_lower : ascii -> bool := between 97 122.
Definition is_digit : ascii -> bool := between 48 57.
Definition is_alpha (a : ascii) : bool := is_upper a || is_lower a.

Definition lower_char (a : ascii) : ascii :=
  if is_upper a then ascii_of_N (code a + 32) else a.

Fixpoint lower (s : string) : string :=
  match s with
  | EmptyString => EmptyString
  | String a s' => String (lower_char a) (lower s')
  end.

(** White space as [str.strip()] sees it, within ASCII. *)
Definition is_space (a : ascii) : bool :=
  between 9 13 a || between 28 32 a.

Fixpoint lstrip (p : ascii -> bool) (s : string) : string :=
  match s with
  | EmptyString => EmptyString
  | String a s' => if p a then lstrip p s' else s
  end.

Fixpoint rstrip (p : ascii -> bool) (s : string) : string :=
  match s with
  | EmptyString => EmptyString
  | String a s' =>
      match rstrip p s' with
      | EmptyString => if p a then EmptyString else String a EmptyString
      | r => String a r
      end
  end.

Definition strip (s : string) : string := rstrip is_space (lstrip is_space s).

Fixpoint remove (p : ascii -> bool) (s : string) : string :=
  match s with
  | EmptyString => EmptyString
  | String a s' => if p a then remove p s' else String a (remove p s')
  end.

Fixpoint all_chars (p : ascii -> bool) (s : string) : bool :=
  match s with
  | EmptyString => true
  | String a s' => p a && all_chars p s'
  end.

Fixpoint has_char (c : ascii) (s : string) : bool :=
  match s with
  | EmptyString => false
  | String a s' => Ascii.eqb a c || has_char c s'
  end.

(** Position of the first character satisfying [p]. *)
Fixpoint first_pos (p : ascii -> bool) (s : string) : option nat :=
  match s with
  | EmptyString => None
  | String a s' => if p a then Some 0%nat else S <$> first_pos p s'
  end.

(** Position of the last occurrence of [c]: [s.rfind(c)]. *)
Fixpoint last_pos (c : ascii) (s : string) : option nat :=
  match s with
  | EmptyString => None
  | String a s' =>
      match last_pos c s' with
      | Some i => Some (S i)
      | None => if Ascii.eqb a c then Some 0%nat else None
      end
  end.

(** [s.split(c, 1)] when [c] occurs in [s]. *)
Definition split_once (c : ascii) (s : string) : option (string * string) :=
  match first_pos (Ascii.eqb c) s with
  | Some i => Some (Str.take i s, Str.drop (S i) s)
  | None => None
  end.

(** [s.split(c)] *)
Fixpoint split (c : ascii) (s : string) : list string :=
  match s with
  | EmptyString => [EmptyString]
  | String a s' =>
      if Ascii.eqb a c then EmptyString :: split c s'
      else match split c s' with
           | x :: l => String a x :: l
           | [] => [String a EmptyString]
           end
  end.

(** *** [urlsplit] and [urlparse] *)

(** [_WHATWG_C0_CONTROL_OR_SPACE] *)
Definition is_c0_or_space : ascii -> bool := between 0 32.

(** [_UNSAFE_URL_BYTES_TO_REMOVE] *)
Definition is_unsafe (a : ascii) : bool :=
  (code a =? 9)%N || (code a =? 13)%N || (code a =? 10)%N.

(** [scheme_chars] *)
Definition is_scheme_char (a : ascii) : bool :=
  is_alpha a || is_digit a
  || Ascii.eqb a "+" || Ascii.eqb a "-" || Ascii.eqb a ".".

Definition uses_params : list string :=
  [""; "ftp"; "hdl"; "prospero"; "http"; "imap"; "https"; "shttp"; "rtsp";
   "rtspu"; "sip"; "sips"; "mms"; "sftp"; "tel"].

Definition head_is (p : ascii -> bool) (s : string) : bool :=
  match s with
  | EmptyString => false
  | String a _ => p a
  end.

(** The scheme step of [urlsplit]: the scheme and the rest of the URL. *)
Definition split_scheme (url : string) : string * string :=
  match first_pos (Ascii.eqb ":") url with
  | Some (S i) =>
      if head_is is_alpha url && all_chars is_scheme_char (Str.take (S i) url)
      then (lower (Str.take (S i) url), Str.drop (S (S i)) url)
      else (EmptyString, url)
  | _ => (EmptyString, url)
  end.

Definition is_netloc_delim (a : ascii) : bool :=
  Ascii.eqb a "/" || Ascii.eqb a "?" || Ascii.eqb a "#".

(** [_splitnetloc(url, 2)] *)
Definition splitnetloc (url : string) : string * string :=
  let tail := Str.drop 2 url in
  match first_pos is_netloc_delim tail with
  | Some d => (Str.take d tail, Str.drop d tail)
  | None => (tail, EmptyString)
  end.

Definition urlsplit (url0 : string)
  : result (string * string * string * string * string) :=
  let url := remove is_unsafe (lstrip is_c0_or_space url0) in
  let '(sch, url) := split_scheme url in
  let go (nl url : string) :=
    let '(url, frag) :=
      match split_once "#" url with
      | Some (u, f) => (u, f)
      | None => (url, EmptyString)
      end in
    let '(url, qry) :=
      match split_once "?" url with
      | Some (u, q) => (u, q)
      | None => (url, EmptyString)
      end in
    Ok (sch, nl, url, qry, frag) in
  if Str.startswith "//" url then
    let '(nl, url) := splitnetloc url in
    if (has_char "[" nl && negb (has_char "]" nl))
       || (has_char "]" nl && negb (has_char "[" nl))
    then Raised (Exception "Invalid IPv6 URL")
    else go nl url
  else go EmptyString url.

(** [_splitparams] *)
Definition splitparams (url : string) : string * string :=
  if has_char "/" url then
    let j := default 0%nat (last_pos "/" url) in
    match first_pos (Ascii.eqb ";") (Str.drop j url) with
    | Some k => (Str.take (j + k) url, Str.drop (S (j + k)) url)
    | None => (url, EmptyString)
    end
  else
    match first_pos (Ascii.eqb ";") url with
    | Some i => (Str.take i url, Str.drop (S i) url)
    | None => (url, EmptyString)
    end.

Definition urlparse (url : string) : result ParseResult :=
  Res.bind (urlsplit url) (fun '(sch, nl, url, qry, frag) =>
  let '(url, par) :=
    if bool_decide (sch ∈ uses_params) && has_char ";" url
    then splitparams url
    else (url, EmptyString) in
  Ok {| scheme := sch; netloc := nl; path := url; params := par;
        query := qry; fragment := frag |}).

(** *** [unquote] *)

(** The value of a character of [_hexdig]. *)
Definition hex_value (a : ascii) : option N :=
  if is_digit a then Some (code a - 48)%N
  else if between 65 70 a then Some (code a - 55)%N
  else if between 97 102 a then Some (code a - 87)%N
  else None.

Fixpoint unquote (s : string) : string :=
  match s with
  | EmptyString => EmptyString
  | String c s' =>
      if Ascii.eqb c "%" then
        match s' with
        | String a (String b rest) =>
            match hex_value a, hex_value b with
            | Some x, Some y => String (ascii_of_N (16 * x + y)) (unquote rest)
            | _, _ => String c (unquote s')
            end
        | _ => String c (unquote s')
        end
      else String c (unquote s')
  end.

(** *** [parse_qsl] and [parse_qs], with their default arguments *)

Definition parse_qsl (qs : string) : list (string * string) :=
  let query_args := if Str.truthy qs then split "&" qs else [] in
  flat_map
    (fun name_value =>
       if negb (Str.truthy name_value) then []
       else match split_once "=" name_value with
            | None => []
            | Some (name, value) =>
                if Str.truthy value
                then [(unquote (Str.replace "+" " " name),
                       unquote (Str.replace "+" " " value))]
                else []
            end)
    query_args.

Definition parse_qs (qs : string) : gmap string (list string) :=
  fold_left
    (fun (parsed_result : gmap string (list string)) (nv : string * string) =>
       let '(name, value) := nv in
       match parsed_result !! name with
       | Some values => <[name := values ++ [value]]> parsed_result
       | None => <[name := [value]]> parsed_result
       end)
    (parse_qsl qs) ∅.

Definition lib : PyLib := Build_PyLib lower strip urlparse parse_qs unquote.

End CPython.



(** ** Module constants *)

Definition QUERY : string := "sa vs ind final scorecard".

Definition SEARCH_BOX_SELECTORS : list string :=
  ["input[name='q']"; "#sb_form_q"; "input[type='search']";
   "input[aria-label='Search']"; "input[role='search']"].

Definition RESULT_LINK_SELECTORS : list string :=
  ["li.b_algo h2 a"; ".b_algo a"; "a[href*='cricbuzz.com']";
   "a[href*='espncricinfo.com']"].

(** ** The search URL *)

(** Line 66, as a function of the query. *)
Definition search_url (query : string) : string :=
  "https://www.bing.com/search?q=" +:+ Str.replace " " "+" query.

(** The spec's "URL-encoding" of a query, read as the form encoding of
    [urllib.parse.quote_plus]: letters, digits and [_.-~] stay, a space
    becomes [+], every other byte becomes [%XX]. *)
Module SpecUrlEncoding.

Definition is_unreserved (a : ascii) : bool :=
  CPython.is_alpha a || CPython.is_digit a
  || Ascii.eqb a "_" || Ascii.eqb a "." || Ascii.eqb a "-" || Ascii.eqb a "~".

Definition hex_digit (n : N) : ascii :=
  if (n <? 10)%N then ascii_of_N (48 + n) else ascii_of_N (55 + n).

Definition quote_char (a : ascii) : string :=
  if Ascii.eqb a " " then "+"
  else if is_unreserved a then String a EmptyString
  else String "%" (String (hex_digit (CPython.code a / 16))
                     (String (hex_digit (CPython.code a mod 16)) EmptyString)).

Fixpoint quote_plus (s : string) : string :=
  match s with
  | EmptyString => EmptyString
  | String a s' => quote_char a +:+ quote_plus s'
  end.

(** The search URL as the spec words it. *)
Definition search_url (query : string) : string :=
  "https://www.bing.com/search?q=" +:+ quote_plus query.

(** The characters whose encoding is one character long. *)
Definition is_plain (a : ascii) : bool := Ascii.eqb a " " || is_unreserved a.

End SpecUrlEncoding.

(** ** Calls to the environment *)

(** The calls [main] makes to Playwright, the clock and the file system,
    indexed by the type of what they return. *)
Inductive call : Type -> Type :=
| chromium_launch (headless : bool) (slow_mo : Z) : call unit
| browser_new_context (viewport_width viewport_height : Z)
    (user_agent locale : string) (accept_downloads : bool) : call unit
| context_new_page : call unit
| page_goto (url wait_until : string) (timeout : Z) : call unit
| locator_count (selector : string) : call nat
| locator_first_click (selector : string) (timeout : Z) : call unit
| page_wait_for_timeout (ms : Z) : call unit
| page_wait_for_selector (selector : string) (timeout : Z) : call unit
| time_time : call Z
| open_w (file : string) : call unit
| file_write (file data : string) : call unit
| page_content : call string
| browser_close : call unit
| nth_inner_text (selector : string) (i : nat) : call string
| nth_get_attribute (selector : string) (i : nat) (name : string) : call (option string)
| nth_scroll_into_view_if_needed (selector : string) (i : nat) : call unit
| nth_click (selector : string) (i : nat) (timeout : Z) : call unit
| page_evaluate (expression arg : string) : call unit
| page_wait_for_load_state (state : string) (timeout : Z) : call unit
| page_screenshot (path : string) (full_page : bool) : call unit
| page_title : call string
| page_url : call string.

(** ** Programs *)

(** A program either returns, raises, prints a line (the arguments of one
    [print]) or makes a call and continues with its outcome.  Programs
    are finite trees: every loop of [main] is bounded. *)
Inductive prog (A : Type) : Type :=
| Ret (a : A)
| Raise (e : exn)
| Print (args : list string) (k : prog A)
| Call {X : Type} (c : call X) (k : result X -> prog A).
Arguments Ret {A} a.
Arguments Raise {A} e.
Arguments Print {A} args k.
Arguments Call {A X} c k.

Fixpoint bind {A B} (p : prog A) (f : A -> prog B) : prog B :=
  match p with
  | Ret a => f a
  | Raise e => Raise e
  | Print args k => Print args (bind k f)
  | Call c k => Call c (fun r => bind (k r) f)
  end.

(** [try: p  except Exception as e: h e] *)
Fixpoint catch {A} (p : prog A) (h : exn -> prog A) : prog A :=
  match p with
  | Ret a => Ret a
  | Raise e => h e
  | Print args k => Print args (catch k h)
  | Call c k => Call c (fun r => catch (k r) h)
  end.

Notation "'let*' x := p 'in' k" := (bind p (fun x => k))
  (at level 10, x name, p at level 100, k at level 200).
Notation "p >> k" := (bind p (fun _ => k))
  (at level 100, k at level 200, right associativity).

(** A call whose exception propagates. *)
Definition call_ {X} (c : call X) : prog X :=
  Call c (fun r => match r with Ok x => Ret x | Raised e => Raise e end).

Definition print (args : list string) : prog unit := Print args (Ret tt).

(** [try: p  except PlaywrightTimeoutError: h] *)
Definition catch_timeout {A} (p : prog A) (h : prog A) : prog A :=
  catch p (fun e =>
    match e with
    | PlaywrightTimeoutError _ => h
    | Exception _ => Raise e
    end).

(** [try: p  finally: c] *)
Definition finally {A} (p : prog A) (c : prog unit) : prog A :=
  let* r := catch (let* a := p in Ret (Ok a)) (fun e => Ret (Raised e)) in
  c >>
  match r with
  | Ok a => Ret a
  | Raised e => Raise e
  end.

Definition lift {A} (r : result A) : prog A :=
  match r with
  | Ok a => Ret a
  | Raised e => Raise e
  end.

(** [str(x)] for an optional string. *)
Definition py_str (x : option string) : string := default "None" x.

(** Truthiness of an optional string. *)
Definition py_truthy (x : option string) : bool :=
  match x with
  | Some s => Str.truthy s
  | None => false
  end.


(** ** The orchestrator *)

Definition dquote : ascii := ascii_of_N 34.

(** The selector [button:has-text("...")]. *)
Definition has_text (text : string) : string :=
  "button:has-text(" +:+ String dquote (text +:+ String dquote ")").

(** Lines 72-79. *)
Definition consent_selectors : list string :=
  [has_text "I agree"; has_text "I Accept"; has_text "Accept all";
   has_text "Accept"; has_text "Ok"; "button#bnp_btn_accept"].

Definition user_agent_string : string :=
  "Mozilla/5.0 (Windows NT 10.0; Win64; x64) AppleWebKit/537.36 "
  +:+ "(KHTML, like Gecko) Chrome/117.0.0.0 Safari/537.36".

(** The result the heuristic settles on: [chosen_index], [chosen_href]
    and [chosen_title]. *)
Record choice : Type := {
  chosen_index : nat;
  chosen_href : option string;
  chosen_title : string
}.

(** Lines 133-135. *)
Definition is_scorecard_link (low_href low_title : string) : bool :=
  Str.contains "scorecard" low_href || Str.contains "scorecard" low_title
  || Str.contains "espncricinfo" low_href || Str.contains "cricbuzz" low_href
  || Str.contains "cricket" low_title || Str.contains "cricket" low_href.

(** [x or ""] for an optional string [x]. *)
Definition or_empty (x : option string) : string :=
  match x with
  | Some s => if Str.truthy s then s else ""
  | None => ""
  end.

(** Line 161. *)
Definition is_absolute (target : option string) : bool :=
  match target with
  | Some t =>
      Str.truthy t && (Str.startswith "http://" t || Str.startswith "https://" t)
  | None => false
  end.

Section Main.
Context {L : PyLib}.

(** Lines 80-86: [for sel in consent_selectors]. *)
Fixpoint consent_loop (sels : list string) : prog unit :=
  match sels with
  | [] => Ret tt
  | sel :: rest =>
      let* n := call_ (locator_count sel) in
      if (0 <? n)%nat then
        print ["Clicking consent button:"; sel] >>
        call_ (locator_first_click sel 5000) >>
        call_ (page_wait_for_timeout 800)
      else consent_loop rest
  end.

(** Lines 91-98: [for sel in RESULT_LINK_SELECTORS]; the value is
    [results_found]. *)
Fixpoint wait_for_results (sels : list string) : prog bool :=
  match sels with
  | [] => Ret false
  | sel :: rest =>
      catch_timeout
        (call_ (page_wait_for_selector sel 30000) >> Ret true)
        (wait_for_results rest)
  end.

(** Lines 102-109. *)
Definition no_results_dump : prog unit :=
  print ["No results selector matched. Saving HTML for debugging."] >>
  let* ts := call_ time_time in
  let html_file := "bing_noresults_" +:+ pretty ts +:+ ".html" in
  call_ (open_w html_file) >>
  let* content := call_ page_content in
  call_ (file_write html_file content) >>
  print ["Saved:"; html_file] >>
  call_ browser_close.

(** Lines 120-139: [for i in range(count)], from index [i] with
    [remaining] indices to go. *)
Fixpoint scan (results : string) (remaining i : nat) : prog (option choice) :=
  match remaining with
  | O => Ret None
  | S remaining' =>
      let* title :=
        catch (let* text := call_ (nth_inner_text results i) in
               Ret (str_strip text))
              (fun _ => Ret "") in
      let* href :=
        catch (let* attr := call_ (nth_get_attribute results i "href") in
               Ret (or_empty attr))
              (fun _ => Ret "") in
      let low_href := str_lower href in
      let low_title := str_lower title in
      if is_scorecard_link low_href low_title then
        Ret (Some {| chosen_index := i; chosen_href := Some href;
                     chosen_title := title |})
      else scan results remaining' (S i)
  end.

(** Lines 142-146. *)
Definition fallback_first (results : string) (count : nat)
    (chosen : option choice) : prog (option choice) :=
  match chosen with
  | Some _ => Ret chosen
  | None =>
      if (0 <? count)%nat then
        let* text := call_ (nth_inner_text results 0) in
        let* attr := call_ (nth_get_attribute results 0 "href") in
        Ret (Some {| chosen_index := 0; chosen_href := attr;
                     chosen_title := str_strip text |})
      else Ret None
  end.

(** Lines 168-178: the element interaction and its scripted fallback. *)
Definition click_or_script (results : string) (c : choice) : prog unit :=
  catch
    (call_ (nth_scroll_into_view_if_needed results (chosen_index c)) >>
     call_ (nth_click results (chosen_index c) 20000))
    (fun e =>
       print ["Click failed:"; exn_str e] >>
       match chosen_href c with
       | Some href =>
           if Str.truthy href then
             catch (call_ (page_evaluate "href => window.location.href = href" href))
                   (fun _ => Ret tt)
           else Ret tt
       | None => Ret tt
       end).

(** Lines 161-178. *)
Definition navigate (results : string) (c : choice) (target : option string)
  : prog unit :=
  if is_absolute target then
    catch_timeout
      (call_ (page_goto (py_str target) "networkidle" 45000))
      (print ["Navigation timeout on direct target; continuing to try clicking the link."])
  else click_or_script results c.

(** Lines 181-203. *)
Definition snapshot : prog unit :=
  catch_timeout (call_ (page_wait_for_load_state "networkidle" 30000)) (Ret tt) >>
  call_ (page_wait_for_timeout 1200) >>
  let* ts := call_ time_time in
  let screenshot_path := "scorecard_" +:+ pretty ts +:+ ".png" in
  call_ (page_screenshot screenshot_path true) >>
  print ["Screenshot saved to:"; screenshot_path] >>
  let* title := call_ page_title in
  let* url := call_ page_url in
  print ["Final page title:"; title] >>
  print ["Final page URL:"; url] >>
  let html_path := "scorecard_" +:+ pretty ts +:+ ".html" in
  call_ (open_w html_path) >>
  let* content := call_ page_content in
  call_ (file_write html_path content) >>
  print ["HTML saved to:"; html_path].

(** Lines 153-203: what follows the choice of a result. *)
Definition visit (results : string) (c : choice) : prog unit :=
  print ["Chosen result #" +:+ pretty (chosen_index c + 1)%nat +:+ ": "
         +:+ chosen_title c] >>
  print ["Raw href:"; py_str (chosen_href c)] >>
  let* target := lift (extract_bing_redirect_value (chosen_href c)) in
  print ["Resolved target:"; py_str target] >>
  navigate results c target >>
  snapshot.

(** Lines 112-151: the choice of a result. *)
Definition pick (results : string) (count : nat) : prog (option choice) :=
  let* found := scan results count 0 in
  fallback_first results count found.

(** Lines 112-203. *)
Definition after_results : prog unit :=
  let results := Str.join ", " RESULT_LINK_SELECTORS in
  let* count := call_ (locator_count results) in
  print ["Found result links:"; pretty count] >>
  let* chosen := pick results count in
  match chosen with
  | None => print ["No suitable result found."] >> call_ browser_close
  | Some c => visit results c
  end.

(** Lines 66-203, the body of the outer [try]. *)
Definition main_try : prog unit :=
  let url := search_url QUERY in
  print ["Going to"; url] >>
  call_ (page_goto url "domcontentloaded" 60000) >>
  catch (consent_loop consent_selectors) (fun _ => Ret tt) >>
  let* results_found := wait_for_results RESULT_LINK_SELECTORS in
  if negb results_found then no_results_dump else after_results.

(** Lines 205-208. *)
Definition main_except (e : exn) : prog unit :=
  match e with
  | PlaywrightTimeoutError msg =>
      print ["A timeout occurred while performing steps:"; msg]
  | Exception msg => print ["An unexpected error occurred:"; msg]
  end.

(** Lines 53-210.  The context manager of line 54 is not modelled. *)
Definition main (headless : bool) : prog unit :=
  call_ (chromium_launch headless 50) >>
  call_ (browser_new_context 1250 778 user_agent_string "en-US" true) >>
  call_ context_new_page >>
  finally (catch main_try main_except) (call_ browser_close).

End Main.

(** ** Runs *)

(** What a run leaves behind: the calls with their outcomes and the lines
    printed, in order. *)
Inductive event : Type :=
| Called {X : Type} (c : call X) (r : result X)
| Printed (args : list string).

(** A behaviour of the environment: the outcome of the call made as the
    [n]-th event of the run. *)
Definition oracle : Type := forall X : Type, nat -> call X -> result X.

(** The run of [p] against [o], when [n] events have happened. *)
Fixpoint run {A} (o : oracle) (p : prog A) (n : nat) : list event * result A :=
  match p with
  | Ret a => ([], Ok a)
  | Raise e => ([], Raised e)
  | Print args k =>
      let '(tr, r) := run o k (S n) in (Printed args :: tr, r)
  | Call c k =>
      let x := o _ n c in
      let '(tr, r) := run o (k x) (S n) in (Called c x :: tr, r)
  end.

Definition trace {A} (o : oracle) (p : prog A) (n : nat) : list event :=
  fst (run o p n).

Definition outcome {A} (o : oracle) (p : prog A) (n : nat) : result A :=
  snd (run o p n).


(** *** Views of a trace *)

(** The selectors waited for, with the timeout given to each wait. *)
Definition attempt_of (e : event) : option (string * Z) :=
  match e with
  | Called (page_wait_for_selector sel t) _ => Some (sel, t)
  | _ => None
  end.

Definition attempts (tr : list event) : list (string * Z) := omap attempt_of tr.

(** The steps of the navigator. *)
Inductive nav_step : Type :=
| Goto (url : string)
| Scroll (i : nat) (returned : bool)
| Click (i : nat) (returned : bool)
| Script (href : string).

Definition returned {X} (r : result X) : bool :=
  match r with
  | Ok _ => true
  | Raised _ => false
  end.

Definition nav_step_of (e : event) : option nav_step :=
  match e with
  | Called (page_goto url _ _) _ => Some (Goto url)
  | Called (nth_scroll_into_view_if_needed _ i) r => Some (Scroll i (returned r))
  | Called (nth_click _ i _) r => Some (Click i (returned r))
  | Called (page_evaluate _ href) _ => Some (Script href)
  | _ => None
  end.

Definition nav_steps (tr : list event) : list nav_step := omap nav_step_of tr.

(** The clock reads and the artifacts of a run: the calls to [time.time],
    [page.screenshot], [open] and [write], and the closing report of line
    203. *)
Definition is_record (e : event) : bool :=
  match e with
  | Called time_time _ => true
  | Called (page_screenshot _ _) _ => true
  | Called (open_w _) _ => true
  | Called (file_write _ _) _ => true
  | Printed (head :: _) => String.eqb head "HTML saved to:"
  | _ => false
  end.

Definition records (tr : list event) : list event := List.filter is_record tr.


(** The script navigation of line 176 for a raw href, if line 174 lets it
    happen. *)
Definition script_step (href : option string) : list nav_step :=
  match href with
  | Some h => if Str.truthy h then [Script h] else []
  | None => []
  end.

(** "A click is attempted before any script navigation": every [Script]
    step has a [Click] step before it. *)
Fixpoint click_before_script (clicked : bool) (steps : list nav_step) : bool :=
  match steps with
  | [] => true
  | Click _ _ :: rest => click_before_script true rest
  | Script _ :: rest => clicked && click_before_script clicked rest
  | _ :: rest => click_before_script clicked rest
  end.

(** *** Assumptions on the environment *)

(** The result links are [cands], each with its inner text and its [href]
    attribute, and stay readable throughout the run. *)
Definition serves (o : oracle) (results : string)
    (cands : list (string * option string)) : Prop :=
  forall k i text attr,
    cands !! i = Some (text, attr) ->
    o string k (nth_inner_text results i) = Ok text
    /\ o (option string) k (nth_get_attribute results i "href") = Ok attr.

(** The browser starts and the search page loads. *)
Definition search_page_loads (o : oracle) : Prop :=
  forall k,
    (forall headless slow_mo, o unit k (chromium_launch headless slow_mo) = Ok tt)
    /\ (forall w h ua loc dl, o unit k (browser_new_context w h ua loc dl) = Ok tt)
    /\ o unit k context_new_page = Ok tt
    /\ (forall url wait_until t, o unit k (page_goto url wait_until t) = Ok tt).

(** No selector matches within its budget. *)
Definition all_time_out (o : oracle) : Prop :=
  forall k sel t,
    exists msg, o unit k (page_wait_for_selector sel t) = Raised (PlaywrightTimeoutError msg).

(** The clock, the page serialisation, the file system and the closing of
    the browser work. *)
Definition dump_works (o : oracle) : Prop :=
  forall k,
    (exists ts, o Z k time_time = Ok ts)
    /\ (forall file, o unit k (open_w file) = Ok tt)
    /\ (exists content, o string k page_content = Ok content)
    /\ (forall file data, o unit k (file_write file data) = Ok tt)
    /\ o unit k browser_close = Ok tt.

(** *** The keyword test as the spec words it *)

Definition relevance_keywords : list string :=
  ["scorecard"; "espncricinfo"; "cricbuzz"; "cricket"].

(** Every keyword is looked for in the href and in the title. *)
Definition spec_relevant (low_href low_title : string) : bool :=
  existsb (fun kw => Str.contains kw low_href || Str.contains kw low_title)
          relevance_keywords.

(** The candidate that a link with inner text [text] and attribute [attr]
    gives, and the test of lines 133-135 on it. *)
Definition candidate_title {L : PyLib} (c : string * option string) : string :=
  str_strip (fst c).

Definition candidate_href (c : string * option string) : string :=
  or_empty (snd c).

Definition relevant {L : PyLib} (c : string * option string) : bool :=
  is_scorecard_link (str_lower (candidate_href c)) (str_lower (candidate_title c)).

(** The heuristic of lines 120-139 on candidates already read: the first
    relevant one from index [i] on. *)
Fixpoint first_relevant {L : PyLib} (i : nat)
    (cands : list (string * option string)) : option choice :=
  match cands with
  | [] => None
  | c :: rest =>
      if relevant c then
        Some {| chosen_index := i; chosen_href := Some (candidate_href c);
                chosen_title := candidate_title c |}
      else first_relevant (S i) rest
  end.

(** *** The artifacts of the two terminal states *)

(** What the success path records, for a clock value and a page content. *)
Definition snapshot_records (ts : Z) (content : string) : list event :=
  [Called time_time (Ok ts);
   Called (page_screenshot ("scorecard_" +:+ pretty ts +:+ ".png") true) (Ok tt);
   Called (open_w ("scorecard_" +:+ pretty ts +:+ ".html")) (Ok tt);
   Called (file_write ("scorecard_" +:+ pretty ts +:+ ".html") content) (Ok tt);
   Printed ["HTML saved to:"; "scorecard_" +:+ pretty ts +:+ ".html"]].

(** How the run ends on the no-results path. *)
Definition no_results_tail (ts : Z) (content : string) : list event :=
  let html_file := "bing_noresults_" +:+ pretty ts +:+ ".html" in
  [Called time_time (Ok ts);
   Called (open_w html_file) (Ok tt);
   Called page_content (Ok content);
   Called (file_write html_file content) (Ok tt);
   Printed ["Saved:"; html_file];
   Called browser_close (Ok tt);
   Called browser_close (Ok tt)].

(** A list of records without the closing report of line 203. *)
Definition no_report (l : list event) : Prop :=
  forall args, ~ In (Printed args) l.

(** [p] reads no clock, writes no artifact and makes no closing report. *)
Definition quiet {A} (p : prog A) : Prop :=
  forall o n, records (trace o p n) = [].

(** The records of [p] are those of one complete snapshot, or contain no
    closing report. *)
Definition captures {A} (p : prog A) : Prop :=
  forall o n,
    (exists ts content, records (trace o p n) = snapshot_records ts content)
    \/ no_report (records (trace o p n)).

(** *** Further views of a trace *)








(** [p] leaves nothing in the view [v]. *)
Definition blind {A B} (v : event -> option B) (p : prog A) : Prop :=
  forall o n, omap v (trace o p n) = [].

(** The kinds of record, in the order in which a complete snapshot makes
    them. *)
Inductive record_kind : Type :=
| ClockRead
| ScreenshotCall
| FileOpen
| FileWrite
| ClosingReport.

Definition kind_of (e : event) : option record_kind :=
  match e with
  | Called time_time _ => Some ClockRead
  | Called (page_screenshot _ _) _ => Some ScreenshotCall
  | Called (open_w _) _ => Some FileOpen
  | Called (file_write _ _) _ => Some FileWrite
  | Printed (head :: _) =>
      if String.eqb head "HTML saved to:" then Some ClosingReport else None
  | _ => None
  end.

Definition record_kinds (tr : list event) : list record_kind := omap kind_of tr.

(** The records of every run of [p] satisfy [P]. *)
Definition records_within (P : list event -> Prop) {A} (p : prog A) : Prop :=
  forall o n, P (records (trace o p n)).

(** The records are the beginning of a snapshot or of a diagnostic dump. *)
Definition orderly (l : list event) : Prop :=
  record_kinds l `prefix_of`
    [ClockRead; ScreenshotCall; FileOpen; FileWrite; ClosingReport]
  \/ record_kinds l `prefix_of` [ClockRead; FileOpen; FileWrite].


(** The label under which the handlers of lines 205-208 report [e]. *)
Definition handler_label (e : exn) : string :=
  match e with
  | PlaywrightTimeoutError _ => "A timeout occurred while performing steps:"
  | Exception _ => "An unexpected error occurred:"
  end.



(** Everything the snapshot of lines 188-203 calls after the wait for the
    load state works. *)
Definition snapshot_works (o : oracle) : Prop :=
  forall k,
    (forall ms, o unit k (page_wait_for_timeout ms) = Ok tt)
    /\ (exists ts, o Z k time_time = Ok ts)
    /\ (forall file full, o unit k (page_screenshot file full) = Ok tt)
    /\ (exists title, o string k page_title = Ok title)
    /\ (exists url, o string k page_url = Ok url)
    /\ (forall file, o unit k (open_w file) = Ok tt)
    /\ (exists content, o string k page_content = Ok content)
    /\ (forall file data, o unit k (file_write file data) = Ok tt).

(** ** Sample environments *)

Module Scenario.

(** A page and its surroundings, the same at every moment of the run. *)
Record world : Type := {
  now : Z;
  matching : list string;
  links : list (result string * result (option string));
  consent_buttons : string -> nat;
  scroll : result unit;
  click : result unit;
  evaluate : result unit;
  html : string
}.

Definition timeout_error {X} : result X :=
  Raised (PlaywrightTimeoutError "Timeout 30000ms exceeded.").

Definition detached {X} : result X :=
  Raised (Exception "Element is not attached to the DOM").

Definition respond (w : world) : oracle :=
  fun X _ c =>
    match c in call X return result X with
    | chromium_launch _ _ => Ok tt
    | browser_new_context _ _ _ _ _ => Ok tt
    | context_new_page => Ok tt
    | page_goto _ _ _ => Ok tt
    | locator_count sel =>
        if bool_decide (sel = Str.join ", " RESULT_LINK_SELECTORS)
        then Ok (length (links w))
        else Ok (consent_buttons w sel)
    | locator_first_click _ _ => Ok tt
    | page_wait_for_timeout _ => Ok tt
    | page_wait_for_selector sel _ =>
        if bool_decide (sel ∈ matching w) then Ok tt else timeout_error
    | time_time => Ok (now w)
    | open_w _ => Ok tt
    | file_write _ _ => Ok tt
    | page_content => Ok (html w)
    | browser_close => Ok tt
    | nth_inner_text _ i =>
        match links w !! i with
        | Some (text, _) => text
        | None => detached
        end
    | nth_get_attribute _ i _ =>
        match links w !! i with
        | Some (_, attr) => attr
        | None => detached
        end
    | nth_scroll_into_view_if_needed _ _ => scroll w
    | nth_click _ _ _ => click w
    | page_evaluate _ _ => evaluate w
    | page_wait_for_load_state _ _ => Ok tt
    | page_screenshot _ _ => Ok tt
    | page_title => Ok "Scorecard"
    | page_url => Ok "https://www.cricbuzz.com/live-cricket-scorecard/1"
    end.

Definition link (text href : string) : result string * result (option string) :=
  (Ok text, Ok (Some href)).

Definition base : world := {|
  now := 1700000000;
  matching := ["li.b_algo h2 a"];
  links := [link "IND vs SA Final - Full Scorecard"
                 "https://www.cricbuzz.com/live-cricket-scorecard/1"];
  consent_buttons := fun _ => 0%nat;
  scroll := Ok tt;
  click := Ok tt;
  evaluate := Ok tt;
  html := "<html><body>ok</body></html>"
|}.

(** A strategy list [A; B; C] of which only [B] matches. *)
Definition only_b : world :=
  {| now := now base; matching := ["#b"]; links := links base;
     consent_buttons := consent_buttons base; scroll := Ok tt; click := Ok tt;
     evaluate := Ok tt; html := html base |}.

(** No result selector matches. *)
Definition no_results : world :=
  {| now := now base; matching := []; links := [];
     consent_buttons := consent_buttons base; scroll := Ok tt; click := Ok tt;
     evaluate := Ok tt; html := html base |}.

(** A relative link whose element cannot be scrolled into view. *)
Definition unscrollable : world :=
  {| now := now base; matching := matching base;
     links := [link "Final scorecard" "/ck/a?id=7"];
     consent_buttons := consent_buttons base; scroll := detached; click := Ok tt;
     evaluate := Ok tt; html := html base |}.

(** The second link names a trusted domain in its title only. *)
Definition domain_in_title : world :=
  {| now := now base; matching := matching base;
     links := [link "Match report" "https://a.example/x";
               link "Cricbuzz live" "https://b.example/y"];
     consent_buttons := consent_buttons base; scroll := Ok tt; click := Ok tt;
     evaluate := Ok tt; html := html base |}.

(** One link without any keyword, whose text cannot be read. *)
Definition unreadable_first : world :=
  {| now := now base; matching := matching base;
     links := [(detached, Ok (Some "https://a.example/x"))];
     consent_buttons := consent_buttons base; scroll := Ok tt; click := Ok tt;
     evaluate := Ok tt; html := html base |}.

End Scenario.

(** * Properties *)

(** ** Strings *)

Lemma truthy_false (s : string) : Str.truthy s = false <-> s = "".
Proof. destruct s; simpl; split; intros H; congruence. Qed.

Lemma truthy_true (s : string) : Str.truthy s = true <-> s <> "".
Proof. destruct s; simpl; split; intros H; congruence. Qed.

Lemma app_nil_l_str (b : string) : "" +:+ b = b.
Proof. reflexivity. Qed.

Lemma app_cons_str (x : ascii) (a b : string) :
  String x a +:+ b = String x (a +:+ b).
Proof. reflexivity. Qed.

Lemma app_empty_r (a : string) : a +:+ "" = a.
Proof.
  induction a as [|x a IH]; [done|]. by rewrite app_cons_str, IH.
Qed.

Lemma app_assoc_str (a b c : string) : (a +:+ b) +:+ c = a +:+ b +:+ c.
Proof.
  induction a as [|x a IH]; [done|]. by rewrite !app_cons_str, IH.
Qed.

Lemma drop_app (a b : string) : Str.drop (String.length a) (a +:+ b) = b.
Proof.
  induction a as [|c a IH]; [by destruct b|].
  rewrite app_cons_str. exact IH.
Qed.

Lemma take_app (a b : string) : Str.take (String.length a) (a +:+ b) = a.
Proof.
  induction a as [|c a IH]; [by destruct b|].
  rewrite app_cons_str. simpl. by rewrite IH.
Qed.

Lemma length_app (a b : string) :
  String.length (a +:+ b) = (String.length a + String.length b)%nat.
Proof.
  induction a as [|c a IH]; [done|].
  rewrite app_cons_str. simpl. by rewrite IH.
Qed.

Lemma clamp_nat (n : nat) (s : string) :
  (n <= String.length s)%nat -> Str.clamp (Z.of_nat n) s = n.
Proof.
  intros Hn. unfold Str.clamp.
  destruct (Z.ltb_spec (Z.of_nat n) 0) as [Hneg|_]; [lia|].
  rewrite Z.min_l by lia. apply Nat2Z.id.
Qed.

Section FirstAmpersand.
#[local] Arguments Ascii.eqb : simpl never.

(** The first [&] of [val ++ post] is the first one of [post] when [val]
    has none. *)
Lemma index_of_amp_app (val post : string) :
  Str.contains "&" val = false ->
  Str.index_of "&" (val +:+ post) =
    (fun i => (String.length val + i)%nat) <$> Str.index_of "&" post.
Proof.
  unfold Str.contains. induction val as [|c val IH]; intros Hval.
  - rewrite app_nil_l_str. by destruct (Str.index_of "&" post).
  - rewrite app_cons_str. simpl in *. destruct (Ascii.eqb "&" c); [done|].
    destruct (Str.index_of "&" val); [done|].
    rewrite IH by done. by destruct (Str.index_of "&" post).
Qed.

(** The text cut out by lines 41-47 is the one between the first [u=] and
    the [&] that follows it. *)
Lemma u_substring_spec (pre val post : string) :
  Str.find "u=" (pre +:+ "u=" +:+ val +:+ post) = Z.of_nat (String.length pre) ->
  Str.contains "&" val = false ->
  post = "" \/ Str.startswith "&" post = true ->
  u_substring (pre +:+ "u=" +:+ val +:+ post) = val.
Proof.
  intros Hfind Hval Hpost. unfold u_substring. rewrite Hfind.
  assert (Hrest : Str.slice_from (pre +:+ "u=" +:+ val +:+ post)
                    (Z.of_nat (String.length pre) + 2) = val +:+ post).
  { unfold Str.slice_from.
    replace (Z.of_nat (String.length pre) + 2)
      with (Z.of_nat (String.length (pre +:+ "u=")))
      by (rewrite length_app; simpl; lia).
    rewrite clamp_nat by (rewrite !length_app; simpl; lia).
    rewrite <- (app_assoc_str pre "u=" (val +:+ post)). apply drop_app. }
  rewrite Hrest. unfold Str.find. rewrite index_of_amp_app by done.
  destruct Hpost as [-> | Hamp].
  - simpl. apply app_empty_r.
  - destruct post as [|c post]; [done|]. simpl in Hamp.
    simpl. rewrite Hamp. simpl.
    destruct (Z.eqb_spec (Z.of_nat (String.length val + 0)) (-1)) as [Hneg|_]; [lia|].
    simpl. unfold Str.slice_to. rewrite Nat.add_0_r.
    rewrite clamp_nat by (rewrite length_app; lia). apply take_app.
Qed.

End FirstAmpersand.

(** ** The redirect resolver *)

Section ResolverFacts.
Context {L : PyLib}.

Lemma extract_empty : extract_bing_redirect "" = Ok "".
Proof. reflexivity. Qed.

(** The resolver on a non-empty [href], by the outcome of the parse. *)
Lemma extract_nonempty (href : string) :
  href <> "" ->
  extract_bing_redirect href =
    match urlparse href with
    | Raised _ => Ok href
    | Ok parsed =>
        match u_param (parse_qs (query parsed)) with
        | Some v => Ok (unquote v)
        | None =>
            if Str.contains "u=" href then Ok (unquote (u_substring href))
            else Ok href
        end
    end.
Proof.
  intros Hne. apply truthy_true in Hne.
  unfold extract_bing_redirect, extract_bing_redirect_try. rewrite Hne. simpl.
  destruct (urlparse href) as [parsed|e]; simpl; [|done].
  destruct (u_param _); simpl; [done|].
  by destruct (Str.contains "u=" href).
Qed.

End ResolverFacts.

(** C1, as amended: for a non-empty [href] that [urlparse] accepts, the
    resolver returns the URL-decode of the first value of the parsed
    parameter [u] when there is one; otherwise, when [u=] occurs in [href],
    the URL-decode of the text between the first [u=] and the next [&] (or
    the end of [href]); and [href] itself in the remaining case. *)
Theorem extract_bing_redirect_decodes {L : PyLib} (href : string) (parsed : ParseResult) :
  href <> "" ->
  urlparse href = Ok parsed ->
  (forall v, u_param (parse_qs (query parsed)) = Some v ->
     extract_bing_redirect href = Ok (unquote v))
  /\ (u_param (parse_qs (query parsed)) = None ->
      forall pre val post,
        href = pre +:+ "u=" +:+ val +:+ post ->
        Str.find "u=" href = Z.of_nat (String.length pre) ->
        Str.contains "&" val = false ->
        post = "" \/ Str.startswith "&" post = true ->
        extract_bing_redirect href = Ok (unquote val))
  /\ (u_param (parse_qs (query parsed)) = None ->
      Str.contains "u=" href = false ->
      extract_bing_redirect href = Ok href).
Proof.
  intros Hne Hparse. rewrite (extract_nonempty href Hne), Hparse.
  split; [|split].
  - by intros v ->.
  - intros -> pre val post Hhref Hfind Hval Hpost.
    assert (Hin : Str.contains "u=" href = true).
    { unfold Str.contains. unfold Str.find in Hfind.
      destruct (Str.index_of "u=" href); [done | lia]. }
    rewrite Hin. subst href. by rewrite u_substring_spec.
  - by intros -> ->.
Qed.

Lemma extract_bing_redirect_decodes_witness :
  extract_bing_redirect (L := CPython.lib)
    "https://www.bing.com/ck/a?!&&p=abc&u=a1aHR0cHM6Ly9lc3Bu&ntb=1"
  = Ok "a1aHR0cHM6Ly9lc3Bu"
  /\ extract_bing_redirect (L := CPython.lib)
       "/ck/a?x=1#frag&u=https%3A%2F%2Fa.com%2Fb&c"
     = Ok "https://a.com/b".
Proof.
  split.
  - destruct (extract_bing_redirect_decodes (L := CPython.lib)
                "https://www.bing.com/ck/a?!&&p=abc&u=a1aHR0cHM6Ly9lc3Bu&ntb=1"
                {| scheme := "https"; netloc := "www.bing.com"; path := "/ck/a";
                   params := ""; query := "!&&p=abc&u=a1aHR0cHM6Ly9lc3Bu&ntb=1";
                   fragment := "" |}) as (H & _); [done | by vm_compute |].
    apply (H "a1aHR0cHM6Ly9lc3Bu"). by vm_compute.
  - destruct (extract_bing_redirect_decodes (L := CPython.lib)
                "/ck/a?x=1#frag&u=https%3A%2F%2Fa.com%2Fb&c"
                {| scheme := ""; netloc := ""; path := "/ck/a"; params := "";
                   query := "x=1"; fragment := "frag&u=https%3A%2F%2Fa.com%2Fb&c" |})
      as (_ & H & _); [done | by vm_compute |].
    apply (H eq_refl "/ck/a?x=1#frag&" "https%3A%2F%2Fa.com%2Fb" "&c");
      [reflexivity | reflexivity | reflexivity | right; reflexivity].
Defined.

(** C1: a non-empty [href] in which [u=] occurs and for which parsing
    yields no parameter [u], yet the resolver does not return the decoded
    text after [u=]: [urlparse] rejects the network location, and the
    handler of line 49 returns [href] as it is. *)
Lemma extract_bing_redirect_parse_failure :
  let href := "http://[u=x" in
  href <> ""
  /\ parsed_u (L := CPython.lib) href = None
  /\ Str.contains "u=" href = true
  /\ u_substring href = "x"
  /\ extract_bing_redirect (L := CPython.lib) href = Ok href
  /\ extract_bing_redirect (L := CPython.lib) href
       <> Ok (unquote (PyLib := CPython.lib) (u_substring href)).
Proof. vm_compute. repeat split; congruence. Qed.

(** C3: the resolver returns on every [href], whatever the library
    functions do; it returns [href] itself when [href] is empty, when
    [urlparse] raises, and when there is neither a parsed parameter [u] nor
    a substring [u=]. *)
Theorem extract_bing_redirect_total {L : PyLib} (href : string) :
  (exists target, extract_bing_redirect href = Ok target)
  /\ (href = "" -> extract_bing_redirect href = Ok href)
  /\ (forall e, urlparse href = Raised e -> extract_bing_redirect href = Ok href)
  /\ (parsed_u href = None -> Str.contains "u=" href = false ->
      extract_bing_redirect href = Ok href).
Proof.
  destruct (decide (href = "")) as [->|Hne].
  { repeat split; eauto using extract_empty. }
  rewrite (extract_nonempty href Hne). unfold parsed_u.
  split; [|split; [done|split]].
  - destruct (urlparse href) as [parsed|e]; [|by eauto].
    destruct (u_param _); [by eauto|].
    destruct (Str.contains "u=" href); by eauto.
  - by intros e ->.
  - intros Hu Hin. rewrite Hin.
    destruct (urlparse href) as [parsed|e]; [|done]. by rewrite Hu.
Qed.

Lemma extract_bing_redirect_total_witness :
  extract_bing_redirect (L := CPython.lib) "" = Ok ""
  /\ extract_bing_redirect (L := CPython.lib) "http://[::1/a?b=c"
     = Ok "http://[::1/a?b=c"
  /\ extract_bing_redirect (L := CPython.lib) "https://www.cricbuzz.com/live?id=7"
     = Ok "https://www.cricbuzz.com/live?id=7".
Proof.
  split; [|split].
  - destruct (extract_bing_redirect_total (L := CPython.lib) "") as (_ & H & _).
    apply H. reflexivity.
  - destruct (extract_bing_redirect_total (L := CPython.lib) "http://[::1/a?b=c")
      as (_ & _ & H & _).
    apply (H (Exception "Invalid IPv6 URL")). vm_compute. reflexivity.
  - destruct (extract_bing_redirect_total (L := CPython.lib)
                "https://www.cricbuzz.com/live?id=7") as (_ & _ & _ & H).
    apply H; vm_compute; reflexivity.
Defined.

(** *** When the resolved target is empty *)

Lemma cpython_unquote_nonempty (s : string) : CPython.unquote s = "" -> s = "".
Proof.
  destruct s as [|c s]; [done|]. simpl.
  destruct (Ascii.eqb c "%"); [|done].
  destruct s as [|a [|b rest]]; try done.
  by destruct (CPython.hex_value a), (CPython.hex_value b).
Qed.

Lemma replace_nonempty (old new : ascii) (s : string) :
  Str.replace old new s = "" -> s = "".
Proof. by destruct s. Qed.

Lemma cpython_parse_qsl_values (qs name value : string) :
  In (name, value) (CPython.parse_qsl qs) -> value <> "".
Proof.
  unfold CPython.parse_qsl. rewrite in_flat_map. intros (nv & _ & Hin).
  destruct (Str.truthy nv); simpl in Hin; [|done].
  destruct (CPython.split_once "=" nv) as [[n v]|]; [|done].
  destruct (Str.truthy v) eqn:Hv; [|done].
  destruct Hin as [[= _ <-]|[]]. apply truthy_true in Hv.
  intros H%cpython_unquote_nonempty%replace_nonempty. done.
Qed.

(** Every value that [parse_qs] stores is non-blank
    ([keep_blank_values] is false). *)
Lemma cpython_parse_qs_values (qs key : string) (values : list string) :
  CPython.parse_qs qs !! key = Some values -> Forall (fun v => v <> "") values.
Proof.
  unfold CPython.parse_qs.
  assert (Hgen : forall (pairs : list (string * string)) (m : gmap string (list string)),
    (forall n v, In (n, v) pairs -> v <> "") ->
    (forall k vs, m !! k = Some vs -> Forall (fun v => v <> "") vs) ->
    forall k vs,
      fold_left
        (fun (parsed_result : gmap string (list string)) (nv : string * string) =>
           let '(name, value) := nv in
           match parsed_result !! name with
           | Some values => <[name := values ++ [value]]> parsed_result
           | None => <[name := [value]]> parsed_result
           end) pairs m !! k = Some vs ->
      Forall (fun v => v <> "") vs).
  { induction pairs as [|[n v] pairs IH]; intros m Hpairs Hm k vs; simpl.
    - apply Hm.
    - apply IH.
      + intros n' v' Hin. apply (Hpairs n' v'). by right.
      + intros k' vs'. assert (Hv : v <> "") by (apply (Hpairs n v); by left).
        destruct (m !! n) as [old|] eqn:Hn.
        * destruct (decide (n = k')) as [->|Hne].
          -- rewrite lookup_insert_eq. intros [= <-].
             apply Forall_app. split; [by eapply Hm | by constructor].
          -- rewrite lookup_insert_ne by done. apply Hm.
        * destruct (decide (n = k')) as [->|Hne].
          -- rewrite lookup_insert_eq. intros [= <-]. by constructor.
          -- rewrite lookup_insert_ne by done. apply Hm. }
  apply Hgen.
  - intros n v. apply cpython_parse_qsl_values.
  - intros k vs. by rewrite lookup_empty.
Qed.

Lemma cpython_u_param_nonempty (qs v : string) :
  u_param (CPython.parse_qs qs) = Some v -> v <> "".
Proof.
  unfold u_param. destruct (CPython.parse_qs qs !! "u") as [[|v' vs]|] eqn:Hu; try done.
  intros [= <-]. apply cpython_parse_qs_values in Hu. by inversion Hu.
Qed.

(** C4: a candidate whose [href] is not empty and whose resolved target
    is. *)
Lemma resolved_target_empty :
  let href := "https://www.bing.com/ck/a?u=" in
  href <> "" /\ extract_bing_redirect (L := CPython.lib) href = Ok "".
Proof. split; [done | by vm_compute]. Qed.

(** C4, as amended: with a library whose [unquote] maps the empty string,
    and only it, to the empty string and whose [parse_qs] keeps no blank
    value, the resolved target of a non-empty [href] is empty exactly when
    [urlparse] accepts [href], no parameter [u] is parsed, [u=] occurs in
    [href], and the text between the first [u=] and the next [&] (or the
    end of [href]) is empty.  In every other case it is not empty. *)
Theorem resolved_target_empty_iff {L : PyLib} :
  (forall s, unquote s = "" <-> s = "") ->
  (forall qs v, u_param (parse_qs qs) = Some v -> v <> "") ->
  forall href, href <> "" ->
    extract_bing_redirect href = Ok ""
    <-> (exists parsed, urlparse href = Ok parsed)
        /\ parsed_u href = None
        /\ Str.contains "u=" href = true
        /\ u_substring href = "".
Proof.
  intros Hunq Hqs href Hne. rewrite (extract_nonempty href Hne). unfold parsed_u.
  destruct (urlparse href) as [parsed|e].
  - destruct (u_param (parse_qs (query parsed))) as [v|] eqn:Hu.
    + split; [|by intros (_ & ? & _)].
      intros [= Hv]. apply (proj1 (Hunq v)) in Hv. by apply Hqs in Hu.
    + destruct (Str.contains "u=" href).
      * split.
        -- intros [= Hv]. apply (proj1 (Hunq _)) in Hv. eauto.
        -- intros (_ & _ & _ & ->). f_equal. by apply (proj2 (Hunq "")).
      * split; [by intros [= ->] | by intros (_ & _ & ? & _)].
  - split; [by intros [= ->] | by intros ([? ?] & _)].
Qed.

Lemma resolved_target_empty_iff_witness :
  extract_bing_redirect (L := CPython.lib) "/ck/a?id=1&u=&v=2" = Ok ""
  /\ extract_bing_redirect (L := CPython.lib) "/ck/a?id=1&u=%41&v=2" <> Ok "".
Proof.
  pose proof (resolved_target_empty_iff (L := CPython.lib)) as H.
  assert (Hunq : forall s, unquote (PyLib := CPython.lib) s = "" <-> s = "").
  { intros s. split; [apply cpython_unquote_nonempty | by intros ->]. }
  specialize (H Hunq cpython_u_param_nonempty).
  split.
  - apply H; [done|]. vm_compute. eauto.
  - intros Hempty. apply H in Hempty; [|done].
    destruct Hempty as (_ & Hu & _). vm_compute in Hu. done.
Defined.

(** ** Runs of composite programs *)

Lemma run_bind {A B} (o : oracle) (p : prog A) (f : A -> prog B) (n : nat) :
  run o (bind p f) n =
    match run o p n with
    | (t1, Ok a) =>
        let '(t2, r) := run o (f a) (n + length t1) in (t1 ++ t2, r)
    | (t1, Raised e) => (t1, Raised e)
    end.
Proof.
  revert n. induction p as [a|e|args k IH|X c k IH]; intros n; simpl.
  - rewrite Nat.add_0_r. by destruct (run o (f a) n).
  - done.
  - rewrite IH. destruct (run o k (S n)) as [t1 [a|e]]; simpl; [|done].
    replace (n + S (length t1))%nat with (S n + length t1)%nat by lia.
    by destruct (run o (f a) _).
  - rewrite IH. destruct (run o (k _) (S n)) as [t1 [a|e]]; simpl; [|done].
    replace (n + S (length t1))%nat with (S n + length t1)%nat by lia.
    by destruct (run o (f a) _).
Qed.

Lemma run_catch {A} (o : oracle) (p : prog A) (h : exn -> prog A) (n : nat) :
  run o (catch p h) n =
    match run o p n with
    | (t1, Ok a) => (t1, Ok a)
    | (t1, Raised e) =>
        let '(t2, r) := run o (h e) (n + length t1) in (t1 ++ t2, r)
    end.
Proof.
  revert n. induction p as [a|e|args k IH|X c k IH]; intros n; simpl.
  - done.
  - rewrite Nat.add_0_r. by destruct (run o (h e) n).
  - rewrite IH. destruct (run o k (S n)) as [t1 [a|e]]; simpl; [done|].
    replace (n + S (length t1))%nat with (S n + length t1)%nat by lia.
    by destruct (run o (h e) _).
  - rewrite IH. destruct (run o (k _) (S n)) as [t1 [a|e]]; simpl; [done|].
    replace (n + S (length t1))%nat with (S n + length t1)%nat by lia.
    by destruct (run o (h e) _).
Qed.

Lemma run_call {X} (o : oracle) (c : call X) (n : nat) :
  run o (call_ c) n = ([Called c (o X n c)], o X n c).
Proof. simpl. by destruct (o X n c). Qed.

Lemma run_print (o : oracle) (args : list string) (n : nat) :
  run o (print args) n = ([Printed args], Ok tt).
Proof. done. Qed.

Lemma run_catch_timeout {A} (o : oracle) (p h : prog A) (n : nat) :
  run o (catch_timeout p h) n =
    match run o p n with
    | (t1, Ok a) => (t1, Ok a)
    | (t1, Raised (PlaywrightTimeoutError m)) =>
        let '(t2, r) := run o h (n + length t1) in (t1 ++ t2, r)
    | (t1, Raised (Exception m)) => (t1, Raised (Exception m))
    end.
Proof.
  unfold catch_timeout. rewrite run_catch.
  destruct (run o p n) as [t1 [a|[m|m]]]; simpl; [done|done|].
  by rewrite app_nil_r.
Qed.

(** The same equations, for the trace and for the outcome. *)

Lemma trace_bind {A B} (o : oracle) (p : prog A) (f : A -> prog B) (n : nat) :
  trace o (bind p f) n =
    trace o p n ++
    match outcome o p n with
    | Ok a => trace o (f a) (n + length (trace o p n))
    | Raised _ => []
    end.
Proof.
  unfold trace, outcome. rewrite run_bind.
  destruct (run o p n) as [t1 [a|e]]; simpl; [|by rewrite app_nil_r].
  by destruct (run o (f a) _).
Qed.

Lemma outcome_bind {A B} (o : oracle) (p : prog A) (f : A -> prog B) (n : nat) :
  outcome o (bind p f) n =
    match outcome o p n with
    | Ok a => outcome o (f a) (n + length (trace o p n))
    | Raised e => Raised e
    end.
Proof.
  unfold trace, outcome. rewrite run_bind.
  destruct (run o p n) as [t1 [a|e]]; simpl; [|done].
  by destruct (run o (f a) _).
Qed.

Lemma trace_catch {A} (o : oracle) (p : prog A) (h : exn -> prog A) (n : nat) :
  trace o (catch p h) n =
    trace o p n ++
    match outcome o p n with
    | Ok _ => []
    | Raised e => trace o (h e) (n + length (trace o p n))
    end.
Proof.
  unfold trace, outcome. rewrite run_catch.
  destruct (run o p n) as [t1 [a|e]]; simpl; [by rewrite app_nil_r|].
  by destruct (run o (h e) _).
Qed.

Lemma outcome_catch {A} (o : oracle) (p : prog A) (h : exn -> prog A) (n : nat) :
  outcome o (catch p h) n =
    match outcome o p n with
    | Ok a => Ok a
    | Raised e => outcome o (h e) (n + length (trace o p n))
    end.
Proof.
  unfold trace, outcome. rewrite run_catch.
  destruct (run o p n) as [t1 [a|e]]; simpl; [done|].
  by destruct (run o (h e) _).
Qed.


Lemma trace_raise {A} (o : oracle) (e : exn) (n : nat) :
  trace o (@Raise A e) n = [].
Proof. done. Qed.

Lemma trace_call {X} (o : oracle) (c : call X) (n : nat) :
  trace o (call_ c) n = [Called c (o X n c)].
Proof. unfold trace. by rewrite run_call. Qed.

Lemma outcome_call {X} (o : oracle) (c : call X) (n : nat) :
  outcome o (call_ c) n = o X n c.
Proof. unfold outcome. by rewrite run_call. Qed.

Lemma run_finally {A} (o : oracle) (p : prog A) (c : prog unit) (n : nat) :
  run o (finally p c) n =
    let '(t1, r1) := run o p n in
    let '(t2, r2) := run o c (n + length t1) in
    (t1 ++ t2, match r2 with Ok _ => r1 | Raised e => Raised e end).
Proof.
  unfold finally. rewrite run_bind, run_catch, run_bind.
  destruct (run o p n) as [t1 [a|e]]; simpl.
  - rewrite app_nil_r, run_bind.
    destruct (run o c (n + length t1)) as [t2 [[]|e2]]; simpl; [|done].
    by rewrite app_nil_r.
  - rewrite app_nil_r, run_bind.
    destruct (run o c (n + length t1)) as [t2 [[]|e2]]; simpl; [|done].
    by rewrite app_nil_r.
Qed.

Lemma trace_finally {A} (o : oracle) (p : prog A) (c : prog unit) (n : nat) :
  trace o (finally p c) n =
    trace o p n ++ trace o c (n + length (trace o p n)).
Proof.
  unfold trace. rewrite run_finally.
  destruct (run o p n) as [t1 r1]; simpl. by destruct (run o c _).
Qed.

Lemma outcome_finally {A} (o : oracle) (p : prog A) (c : prog unit) (n : nat) :
  outcome o (finally p c) n =
    match outcome o c (n + length (trace o p n)) with
    | Ok _ => outcome o p n
    | Raised e => Raised e
    end.
Proof.
  unfold outcome, trace. rewrite run_finally.
  destruct (run o p n) as [t1 r1]; simpl. by destruct (run o c _).
Qed.

(** *** Programs that record nothing *)

Lemma records_app (t1 t2 : list event) :
  records (t1 ++ t2) = records t1 ++ records t2.
Proof. apply List.filter_app. Qed.

Lemma quiet_ret {A} (a : A) : quiet (Ret a).
Proof. done. Qed.

Lemma quiet_raise {A} (e : exn) : quiet (@Raise A e).
Proof. done. Qed.

Lemma quiet_bind {A B} (p : prog A) (f : A -> prog B) :
  quiet p -> (forall a, quiet (f a)) -> quiet (bind p f).
Proof.
  intros Hp Hf o n. rewrite trace_bind, records_app, Hp.
  destruct (outcome o p n); [apply Hf | done].
Qed.

Lemma quiet_catch {A} (p : prog A) (h : exn -> prog A) :
  quiet p -> (forall e, quiet (h e)) -> quiet (catch p h).
Proof.
  intros Hp Hh o n. rewrite trace_catch, records_app, Hp.
  destruct (outcome o p n); [done | apply Hh].
Qed.

Lemma quiet_catch_timeout {A} (p h : prog A) :
  quiet p -> quiet h -> quiet (catch_timeout p h).
Proof.
  intros Hp Hh. apply quiet_catch; [done|]. intros [m|m]; [done | apply quiet_raise].
Qed.

Lemma quiet_call {X} (c : call X) :
  (forall r, is_record (Called c r) = false) -> quiet (call_ c).
Proof.
  intros Hc o n. rewrite trace_call. unfold records. cbn [List.filter].
  by rewrite Hc.
Qed.

Lemma quiet_print (args : list string) :
  is_record (Printed args) = false -> quiet (print args).
Proof.
  intros Hp o n. unfold trace, records. cbn [run print fst List.filter].
  by rewrite Hp.
Qed.

Lemma quiet_lift {A} (r : result A) : quiet (lift r).
Proof. by destruct r. Qed.

Create HintDb quiet.
#[local] Hint Resolve quiet_ret quiet_raise quiet_bind quiet_catch
  quiet_catch_timeout quiet_lift : quiet.
#[local] Hint Extern 1 (quiet (call_ _)) => (apply quiet_call; reflexivity) : quiet.
#[local] Hint Extern 1 (quiet (print _)) => (apply quiet_print; reflexivity) : quiet.
#[local] Hint Extern 2 (quiet (if ?b then _ else _)) => destruct b : quiet.
#[local] Hint Extern 2 (quiet (match ?x with Some _ => _ | None => _ end)) =>
  destruct x : quiet.

(** The loops, one iteration at a time. *)

Lemma consent_loop_cons (sel : string) (sels : list string) :
  consent_loop (sel :: sels) =
    let* n := call_ (locator_count sel) in
    if (0 <? n)%nat then
      print ["Clicking consent button:"; sel] >>
      call_ (locator_first_click sel 5000) >>
      call_ (page_wait_for_timeout 800)
    else consent_loop sels.
Proof. reflexivity. Qed.

Lemma wait_for_results_cons (sel : string) (sels : list string) :
  wait_for_results (sel :: sels) =
    catch_timeout
      (call_ (page_wait_for_selector sel 30000) >> Ret true)
      (wait_for_results sels).
Proof. reflexivity. Qed.

Lemma scan_S {L : PyLib} (results : string) (remaining i : nat) :
  scan results (S remaining) i =
    let* title :=
      catch (let* text := call_ (nth_inner_text results i) in
             Ret (str_strip text))
            (fun _ => Ret "") in
    let* href :=
      catch (let* attr := call_ (nth_get_attribute results i "href") in
             Ret (or_empty attr))
            (fun _ => Ret "") in
    if is_scorecard_link (str_lower href) (str_lower title) then
      Ret (Some {| chosen_index := i; chosen_href := Some href;
                   chosen_title := title |})
    else scan results remaining (S i).
Proof. reflexivity. Qed.

Lemma quiet_consent_loop (sels : list string) : quiet (consent_loop sels).
Proof.
  induction sels as [|sel sels IH]; [apply quiet_ret|].
  rewrite consent_loop_cons.
  apply quiet_bind; [auto with quiet|]. intros count.
  destruct (0 <? count)%nat; auto 10 with quiet.
Qed.

Lemma quiet_wait_for_results (sels : list string) : quiet (wait_for_results sels).
Proof.
  induction sels as [|sel sels IH]; [apply quiet_ret|].
  rewrite wait_for_results_cons. auto 10 with quiet.
Qed.

Lemma quiet_scan {L : PyLib} (results : string) (remaining i : nat) :
  quiet (scan results remaining i).
Proof.
  revert i. induction remaining as [|remaining IH]; intros i; [apply quiet_ret|].
  rewrite scan_S.
  apply quiet_bind; [auto 10 with quiet|]. intros title.
  apply quiet_bind; [auto 10 with quiet|]. intros href.
  destruct (is_scorecard_link _ _); auto with quiet.
Qed.

Lemma quiet_pick {L : PyLib} (results : string) (count : nat) :
  quiet (pick results count).
Proof.
  unfold pick, fallback_first. apply quiet_bind; [apply quiet_scan|].
  intros [c|]; [apply quiet_ret|].
  destruct (0 <? count)%nat; auto 10 with quiet.
Qed.

Lemma quiet_navigate (results : string) (c : choice) (target : option string) :
  quiet (navigate results c target).
Proof.
  unfold navigate, click_or_script.
  destruct (is_absolute target); [auto 10 with quiet|].
  apply quiet_catch; [auto 10 with quiet|]. intros e.
  apply quiet_bind; [auto with quiet|]. intros _.
  destruct (chosen_href c) as [href|]; [|apply quiet_ret].
  destruct (Str.truthy href); auto 10 with quiet.
Qed.

(** Case analysis on the outcome of the next call of a run. *)
Ltac next_call o :=
  simpl;
  match goal with
  | |- context [o ?X ?n ?c] =>
      let r := fresh "r" in
      let Hr := fresh "Hr" in
      destruct (o X n c) as [r|r] eqn:Hr;
      repeat match goal with u : unit |- _ => destruct u end;
      simpl
  end.

(** ** The selector resolution engine *)

(** When every wait times out the engine reports not found. *)
Lemma wait_for_results_none (o : oracle) (sels : list string) (n : nat) :
  (forall k s t, s ∈ sels ->
     exists m, o unit k (page_wait_for_selector s t) = Raised (PlaywrightTimeoutError m)) ->
  outcome o (wait_for_results sels) n = Ok false
  /\ attempts (trace o (wait_for_results sels) n) = (fun s => (s, 30000)) <$> sels.
Proof.
  unfold outcome, trace.
  revert n. induction sels as [|s sels IH]; intros n Hall; simpl; [done|].
  destruct (Hall n s 30000) as [m ->]; [by left|]. simpl.
  destruct (IH (S n) (fun k s' t Hin => Hall k s' t (list_elem_of_further _ _ _ Hin)))
    as [Hout Hatt].
  destruct (run o _ (S n)) as [t2 r]. simpl in *. by rewrite Hout, Hatt.
Qed.


(** C5: [wait_for_results] waits for the selectors in list order, each
    with its own 30000 ms budget.  When the waits for the selectors of
    [pre] time out and the wait for [sel] returns, the engine reports found
    and has waited for [pre] and [sel] only, nothing of [post]; when every
    wait times out it reports not found, as a value and not as an
    exception, having waited for each selector once.  With [pre = [A]],
    [sel = B] and [post = [C]]: [B] is found and [C] is never tried. *)
Theorem wait_for_results_first_match (o : oracle) (sels : list string) (n : nat) :
  (forall pre sel post,
     sels = pre ++ sel :: post ->
     (forall k s t, s ∈ pre ->
        exists m, o unit k (page_wait_for_selector s t) = Raised (PlaywrightTimeoutError m)) ->
     (forall k t, o unit k (page_wait_for_selector sel t) = Ok tt) ->
     outcome o (wait_for_results sels) n = Ok true
     /\ attempts (trace o (wait_for_results sels) n)
        = (fun s => (s, 30000)) <$> (pre ++ [sel]))
  /\ ((forall k s t, s ∈ sels ->
         exists m, o unit k (page_wait_for_selector s t) = Raised (PlaywrightTimeoutError m)) ->
      outcome o (wait_for_results sels) n = Ok false
      /\ attempts (trace o (wait_for_results sels) n) = (fun s => (s, 30000)) <$> sels).
Proof.
  unfold outcome, trace. split.
  - intros pre sel post -> Hpre Hsel. revert n.
    induction pre as [|s pre IH]; intros n; simpl.
    + by rewrite Hsel.
    + destruct (Hpre n s 30000) as [m ->]; [by left|]. simpl.
      destruct (IH (fun k s' t Hin => Hpre k s' t (list_elem_of_further _ _ _ Hin)) (S n))
        as [Hout Hatt].
      destruct (run o _ (S n)) as [t2 r]. simpl in *. by rewrite Hout, Hatt.
  - apply wait_for_results_none.
Qed.

Lemma wait_for_results_first_match_witness :
  let o := Scenario.respond Scenario.only_b in
  outcome o (wait_for_results ["#a"; "#b"; "#c"]) 0 = Ok true
  /\ attempts (trace o (wait_for_results ["#a"; "#b"; "#c"]) 0)
     = [("#a", 30000); ("#b", 30000)].
Proof.
  intros o.
  destruct (wait_for_results_first_match o ["#a"; "#b"; "#c"] 0) as [H _].
  apply (H ["#a"] "#b" ["#c"]).
  - reflexivity.
  - intros k s t Hs. apply list_elem_of_singleton in Hs as ->.
    exists "Timeout 30000ms exceeded.". reflexivity.
  - intros k t. reflexivity.
Defined.

(** ** The navigator *)

(** C6: a relative target, an element that cannot be scrolled into view:
    the script navigation runs although no click was attempted. *)
Lemma script_without_click :
  let o := Scenario.respond Scenario.unscrollable in
  let c := {| chosen_index := 0; chosen_href := Some "/ck/a?id=7";
              chosen_title := "Final scorecard" |} in
  is_absolute (Some "/ck/a?id=7") = false
  /\ nav_steps (trace o (navigate "a" c (Some "/ck/a?id=7")) 0)
     = [Scroll 0 false; Script "/ck/a?id=7"]
  /\ click_before_script false
       (nav_steps (trace o (navigate "a" c (Some "/ck/a?id=7")) 0)) = false.
Proof. vm_compute. done. Qed.

(** C6, as amended: for a target that is not an absolute URL the navigator
    starts with the element interaction (scroll into view, then click on
    the chosen element); the script navigation comes only after the scroll
    or the click has raised, only for a non-empty raw href, and with that
    raw href; whatever the script navigation does, [navigate] returns and
    the run goes on with [snapshot]. *)
Theorem navigate_interaction_first (o : oracle) (results : string) (c : choice)
    (target : option string) (n : nat) :
  is_absolute target = false ->
  outcome o (navigate results c target) n = Ok tt
  /\ (exists scrolled clicked,
        nav_steps (trace o (navigate results c target) n)
        = Scroll (chosen_index c) scrolled
          :: (if scrolled then [Click (chosen_index c) clicked] else [])
          ++ (if scrolled && clicked then [] else script_step (chosen_href c)))
  /\ trace o (navigate results c target >> snapshot) n
     = trace o (navigate results c target) n
       ++ trace o snapshot (n + length (trace o (navigate results c target) n)).
Proof.
  intros Habs. unfold navigate. rewrite Habs.
  assert (Hrun : exists scrolled clicked tr,
    run o (click_or_script results c) n = (tr, Ok tt)
    /\ nav_steps tr
       = Scroll (chosen_index c) scrolled
         :: (if scrolled then [Click (chosen_index c) clicked] else [])
         ++ (if scrolled && clicked then [] else script_step (chosen_href c))).
  { unfold click_or_script. next_call o.
    - next_call o.
      + exists true, true. eauto.
      + exists true, false. destruct (chosen_href c) as [href|]; simpl; [|eauto].
        destruct (Str.truthy href); simpl; [|eauto].
        next_call o; eauto.
    - exists false, false. destruct (chosen_href c) as [href|]; simpl; [|eauto].
      destruct (Str.truthy href); simpl; [|eauto].
      next_call o; eauto. }
  destruct Hrun as (scrolled & clicked & tr & Hrun & Hsteps).
  unfold outcome, trace. rewrite run_bind, Hrun. cbv beta iota. cbn [fst snd].
  split; [done|]. split; [by eauto|].
  by destruct (run o snapshot (n + length tr)).
Qed.

Lemma navigate_interaction_first_witness :
  let o := Scenario.respond Scenario.unscrollable in
  let c := {| chosen_index := 0; chosen_href := Some "/ck/a?id=7";
              chosen_title := "Final scorecard" |} in
  outcome o (navigate "a" c (Some "/ck/a?id=7")) 0 = Ok tt.
Proof.
  intros o c.
  apply (navigate_interaction_first o "a" c (Some "/ck/a?id=7") 0).
  reflexivity.
Defined.

(** ** The search URL *)

Lemma replace_length (old new : ascii) (s : string) :
  String.length (Str.replace old new s) = String.length s.
Proof. induction s as [|a s IH]; simpl; [done | by rewrite IH]. Qed.

Lemma quote_char_length (a : ascii) :
  String.length (SpecUrlEncoding.quote_char a)
  = if SpecUrlEncoding.is_plain a then 1%nat else 3%nat.
Proof.
  unfold SpecUrlEncoding.quote_char, SpecUrlEncoding.is_plain.
  destruct (Ascii.eqb a " "); [done|]. simpl.
  by destruct (SpecUrlEncoding.is_unreserved a).
Qed.

Lemma quote_plus_length_ge (s : string) :
  (String.length s <= String.length (SpecUrlEncoding.quote_plus s))%nat.
Proof.
  induction s as [|a s IH]; simpl; [done|].
  rewrite length_app, quote_char_length.
  destruct (SpecUrlEncoding.is_plain a); lia.
Qed.

Lemma quote_plus_plain (s : string) :
  CPython.all_chars SpecUrlEncoding.is_plain s = true ->
  SpecUrlEncoding.quote_plus s = Str.replace " " "+" s.
Proof.
  induction s as [|a s IH]; simpl; [done|].
  intros [Ha Hs]%andb_true_iff. rewrite IH by done.
  unfold SpecUrlEncoding.quote_char, SpecUrlEncoding.is_plain in *.
  destruct (Ascii.eqb a " "); [done|]. simpl in Ha. by rewrite Ha.
Qed.

Lemma quote_plus_same_length (s : string) :
  String.length (SpecUrlEncoding.quote_plus s) = String.length s ->
  CPython.all_chars SpecUrlEncoding.is_plain s = true.
Proof.
  induction s as [|a s IH]; simpl; [done|].
  rewrite length_app, quote_char_length.
  pose proof (quote_plus_length_ge s).
  destruct (SpecUrlEncoding.is_plain a); simpl; [|lia].
  intros Hlen. apply IH. lia.
Qed.

(** C9: a query whose URL-encoding is not what line 66 appends to the
    endpoint. *)
Lemma search_url_not_encoded :
  search_url "ind&sa final" = "https://www.bing.com/search?q=ind&sa+final"
  /\ SpecUrlEncoding.search_url "ind&sa final"
     = "https://www.bing.com/search?q=ind%26sa+final"
  /\ search_url "ind&sa final" <> SpecUrlEncoding.search_url "ind&sa final".
Proof. vm_compute. done. Qed.

(** C9, as amended: the search URL is the fixed endpoint followed by the
    query with every space replaced by [+]; it is the endpoint followed by
    the URL-encoded query exactly when the query is made of letters,
    digits, [_.-~] and spaces, as [QUERY] is. *)
Theorem search_url_encoded_iff (query : string) :
  search_url query = "https://www.bing.com/search?q=" +:+ Str.replace " " "+" query
  /\ (search_url query = SpecUrlEncoding.search_url query
      <-> CPython.all_chars SpecUrlEncoding.is_plain query = true)
  /\ search_url QUERY = SpecUrlEncoding.search_url QUERY.
Proof.
  split; [done|]. split; [|by vm_compute].
  unfold search_url, SpecUrlEncoding.search_url. split.
  - intros Heq%(inj (String.append _)).
    apply quote_plus_same_length. by rewrite <- Heq, replace_length.
  - intros Hplain. by rewrite quote_plus_plain.
Qed.

Lemma search_url_encoded_iff_witness :
  search_url "ind vs sa" = SpecUrlEncoding.search_url "ind vs sa".
Proof.
  destruct (search_url_encoded_iff "ind vs sa") as (_ & H & _).
  apply H. reflexivity.
Defined.

(** ** The snapshot recorder *)

Lemma no_report_nil : no_report [].
Proof. intros args []. Qed.

Lemma snapshot_records_cases (o : oracle) (n : nat) :
  (exists ts content,
     records (trace o snapshot n) = snapshot_records ts content)
  \/ no_report (records (trace o snapshot n)).
Proof.
  unfold trace, snapshot, catch_timeout.
  next_call o; [| destruct r; simpl];
    repeat next_call o;
    first [ left; do 2 eexists; reflexivity
          | right; intros args Hin; simpl in Hin; intuition discriminate ].
Qed.

(** *** What a run can record *)

Lemma captures_quiet {A} (p : prog A) : quiet p -> captures p.
Proof. intros Hp o n. right. rewrite Hp. apply no_report_nil. Qed.

Lemma captures_bind {A B} (p : prog A) (f : A -> prog B) :
  quiet p -> (forall a, captures (f a)) -> captures (bind p f).
Proof.
  intros Hp Hf o n. rewrite trace_bind, records_app, (Hp o n).
  destruct (outcome o p n) as [a|e]; [apply Hf|].
  right. apply no_report_nil.
Qed.

Lemma captures_catch {A} (p : prog A) (h : exn -> prog A) :
  captures p -> (forall e, quiet (h e)) -> captures (catch p h).
Proof.
  intros Hp Hh o n. rewrite trace_catch, records_app.
  destruct (outcome o p n) as [a|e]; simpl; rewrite ?(Hh _ o), app_nil_r; apply Hp.
Qed.

Lemma captures_finally {A} (p : prog A) (c : prog unit) :
  captures p -> quiet c -> captures (finally p c).
Proof.
  intros Hp Hc o n. rewrite trace_finally, records_app, (Hc o), app_nil_r. apply Hp.
Qed.

Lemma captures_snapshot : captures snapshot.
Proof. intros o n. apply snapshot_records_cases. Qed.

Lemma captures_no_results_dump : captures no_results_dump.
Proof.
  intros o n. right. unfold trace, no_results_dump.
  repeat next_call o; intros args Hin; simpl in Hin; intuition discriminate.
Qed.

Lemma captures_visit {L : PyLib} (results : string) (c : choice) :
  captures (visit results c).
Proof.
  unfold visit.
  apply captures_bind; [apply quiet_print; reflexivity|]. intros _.
  apply captures_bind; [auto with quiet|]. intros _.
  apply captures_bind; [apply quiet_lift|]. intros target.
  apply captures_bind; [auto with quiet|]. intros _.
  apply captures_bind; [apply quiet_navigate|]. intros _.
  apply captures_snapshot.
Qed.

Lemma captures_after_results {L : PyLib} : captures after_results.
Proof.
  unfold after_results.
  apply captures_bind; [auto with quiet|]. intros count.
  apply captures_bind; [auto with quiet|]. intros _.
  apply captures_bind; [apply quiet_pick|]. intros [c|].
  - apply captures_visit.
  - apply captures_quiet. auto with quiet.
Qed.

Lemma captures_main_try {L : PyLib} : captures main_try.
Proof.
  unfold main_try.
  apply captures_bind; [auto with quiet|]. intros _.
  apply captures_bind; [auto with quiet|]. intros _.
  apply captures_bind.
  { apply quiet_catch; [apply quiet_consent_loop | auto with quiet]. }
  intros _.
  apply captures_bind; [apply quiet_wait_for_results|]. intros found.
  destruct found; simpl.
  - apply captures_after_results.
  - apply captures_no_results_dump.
Qed.

Lemma captures_main {L : PyLib} (headless : bool) : captures (main headless).
Proof.
  unfold main.
  apply captures_bind; [auto with quiet|]. intros _.
  apply captures_bind; [auto with quiet|]. intros _.
  apply captures_bind; [auto with quiet|]. intros _.
  apply captures_finally; [|auto with quiet].
  apply captures_catch; [apply captures_main_try|].
  intros [msg|msg]; simpl; auto with quiet.
Qed.

(** C10: a run of [main] that makes the closing report of line 203 has
    read the clock once, taken one screenshot [scorecard_<ts>.png] and
    opened and written one file [scorecard_<ts>.html], with the value [ts]
    of that one clock read in both names; it recorded nothing else. *)
Theorem snapshot_pair {L : PyLib} (o : oracle) (headless : bool) :
  (exists file, In (Printed ["HTML saved to:"; file]) (trace o (main headless) 0)) ->
  exists ts content,
    records (trace o (main headless) 0) = snapshot_records ts content.
Proof.
  intros [file Hin].
  destruct (captures_main headless o 0%nat) as [Hfull|Hnone]; [done|].
  exfalso. apply (Hnone ["HTML saved to:"; file]).
  unfold records. apply filter_In. by split.
Qed.

Lemma snapshot_pair_witness :
  exists ts content,
    records (trace (Scenario.respond Scenario.base) (main (L := CPython.lib) false) 0)
    = snapshot_records ts content.
Proof.
  apply (snapshot_pair (L := CPython.lib) (Scenario.respond Scenario.base) false).
  exists "scorecard_1700000000.html". vm_compute. tauto.
Defined.

(** ** The no-results diagnostic *)

(** The consent handler always returns. *)
Lemma outcome_consent (o : oracle) (sels : list string) (n : nat) :
  outcome o (catch (consent_loop sels) (fun _ => Ret tt)) n = Ok tt.
Proof.
  rewrite outcome_catch. by destruct (outcome o (consent_loop sels) n) as [[]|e].
Qed.

(** The dump of lines 102-109 when the clock, the page and the file system
    work. *)
Lemma no_results_dump_run (o : oracle) (n : nat) :
  dump_works o ->
  exists ts content,
    run o no_results_dump n =
      (Printed ["No results selector matched. Saving HTML for debugging."]
       :: removelast (no_results_tail ts content), Ok tt).
Proof.
  intros Hd. unfold no_results_dump. simpl.
  destruct (Hd (S n)) as ([ts Hts] & _). rewrite Hts. simpl.
  destruct (Hd (S (S n))) as (_ & Hopen & _). rewrite Hopen. simpl.
  destruct (Hd (S (S (S n)))) as (_ & _ & [content Hcontent] & _).
  rewrite Hcontent. simpl.
  destruct (Hd (S (S (S (S n))))) as (_ & _ & _ & Hwrite & _). rewrite Hwrite. simpl.
  destruct (Hd (S (S (S (S (S (S n))))))) as (_ & _ & _ & _ & Hclose).
  rewrite Hclose. simpl. by exists ts, content.
Qed.

Lemma run_seq {A B} {o : oracle} {p : prog A} {f : A -> prog B} {n : nat}
    {t1 : list event} {a : A} :
  run o p n = (t1, Ok a) ->
  run o (bind p f) n =
    (t1 ++ trace o (f a) (n + length t1), outcome o (f a) (n + length t1)).
Proof.
  intros Hp. rewrite run_bind, Hp. unfold trace, outcome.
  by destruct (run o (f a) _).
Qed.

Lemma main_try_no_results {L : PyLib} (o : oracle) (n : nat) :
  search_page_loads o -> all_time_out o -> dump_works o ->
  exists ts content pre,
    run o main_try n = (pre ++ removelast (no_results_tail ts content), Ok tt)
    /\ records pre = [].
Proof.
  intros Hload Htime Hdump. unfold main_try. cbv zeta.
  rewrite (run_seq (run_print o _ n)). unfold trace, outcome.
  generalize (n + length [Printed ["Going to"; search_url QUERY]])%nat. intros k1.
  assert (Hgoto : run o (call_ (page_goto (search_url QUERY) "domcontentloaded" 60000)) k1
                  = ([Called (page_goto (search_url QUERY) "domcontentloaded" 60000) (Ok tt)],
                     Ok tt)).
  { rewrite run_call. destruct (Hload k1) as (_ & _ & _ & H). by rewrite H. }
  rewrite (run_seq Hgoto). unfold trace, outcome.
  generalize (k1 + length [Called (page_goto (search_url QUERY) "domcontentloaded" 60000)
                             (Ok tt)])%nat. intros k2.
  destruct (run o (catch (consent_loop consent_selectors) (fun _ => Ret tt)) k2)
    as [tc rc] eqn:Hconsent.
  assert (rc = Ok tt) as ->.
  { pose proof (outcome_consent o consent_selectors k2) as H.
    unfold outcome in H. by rewrite Hconsent in H. }
  assert (Hquiet_c : records tc = []).
  { pose proof (quiet_catch _ (fun _ => Ret tt)
                  (quiet_consent_loop consent_selectors) (fun _ => quiet_ret tt) o k2) as H.
    unfold trace in H. by rewrite Hconsent in H. }
  rewrite (run_seq Hconsent). unfold trace, outcome.
  generalize (k2 + length tc)%nat. intros k3.
  destruct (run o (wait_for_results RESULT_LINK_SELECTORS) k3) as [tw rw] eqn:Hwait.
  assert (rw = Ok false) as ->.
  { destruct (wait_for_results_none o RESULT_LINK_SELECTORS k3) as [H _].
    - intros k s t _. apply Htime.
    - unfold outcome in H. by rewrite Hwait in H. }
  assert (Hquiet_w : records tw = []).
  { pose proof (quiet_wait_for_results RESULT_LINK_SELECTORS o k3) as H.
    unfold trace in H. by rewrite Hwait in H. }
  rewrite (run_seq Hwait). unfold trace, outcome. cbn [negb].
  destruct (no_results_dump_run o (k3 + length tw) Hdump) as (ts & content & ->).
  cbn [fst snd].
  exists ts, content,
    ([Printed ["Going to"; search_url QUERY]]
     ++ [Called (page_goto (search_url QUERY) "domcontentloaded" 60000) (Ok tt)]
     ++ tc ++ tw
     ++ [Printed ["No results selector matched. Saving HTML for debugging."]]).
  split.
  - by rewrite <- !app_assoc.
  - rewrite !records_app, Hquiet_c, Hquiet_w. reflexivity.
Qed.

(** C7: when the search page loads, every wait for a result selector times
    out, and the clock, the page serialisation, the file system and the
    closing of the browser work, [main] ends with the steps of the
    diagnostic dump: it reads the clock, opens [bing_noresults_<ts>.html],
    writes the page markup to it, reports it and closes the browser.
    Nothing is recorded before the dump, so this file is the only one
    written and no screenshot is taken, and [main] returns normally. *)
Theorem no_results_diagnostic {L : PyLib} (o : oracle) (headless : bool) :
  search_page_loads o -> all_time_out o -> dump_works o ->
  exists ts content pre,
    trace o (main headless) 0 = pre ++ no_results_tail ts content
    /\ records pre = []
    /\ records (trace o (main headless) 0)
       = [Called time_time (Ok ts);
          Called (open_w ("bing_noresults_" +:+ pretty ts +:+ ".html")) (Ok tt);
          Called (file_write ("bing_noresults_" +:+ pretty ts +:+ ".html") content)
                 (Ok tt)]
    /\ outcome o (main headless) 0 = Ok tt.
Proof.
  intros Hload Htime Hdump. unfold main, trace, outcome.
  assert (Hcall : forall (c : call unit) k,
            o unit k c = Ok tt -> run o (call_ c) k = ([Called c (Ok tt)], Ok tt)).
  { intros c k Hc. by rewrite run_call, Hc. }
  destruct (Hload 0%nat) as (Hlaunch & _).
  rewrite (run_seq (Hcall _ _ (Hlaunch headless 50))). unfold trace, outcome.
  destruct (Hload 1%nat) as (_ & Hcontext & _).
  rewrite (run_seq (Hcall _ _ (Hcontext 1250 778 user_agent_string "en-US" true))).
  unfold trace, outcome.
  destruct (Hload 2%nat) as (_ & _ & Hpage & _).
  rewrite (run_seq (Hcall _ _ Hpage)). unfold trace, outcome.
  cbn [length Nat.add]. rewrite run_finally, run_catch.
  destruct (main_try_no_results o 3 Hload Htime Hdump)
    as (ts & content & pre & -> & Hpre).
  destruct (Hdump (3 + length (pre ++ removelast (no_results_tail ts content)))%nat)
    as (_ & _ & _ & _ & Hclose).
  rewrite (Hcall _ _ Hclose). cbn [fst snd].
  exists ts, content,
    ([Called (chromium_launch headless 50) (Ok tt)]
     ++ [Called (browser_new_context 1250 778 user_agent_string "en-US" true) (Ok tt)]
     ++ [Called context_new_page (Ok tt)] ++ pre).
  assert (Htail : no_results_tail ts content
                  = removelast (no_results_tail ts content)
                    ++ [Called browser_close (Ok tt)]) by reflexivity.
  assert (Htrace :
    [Called (chromium_launch headless 50) (Ok tt)] ++
    [Called (browser_new_context 1250 778 user_agent_string "en-US" true) (Ok tt)] ++
    [Called context_new_page (Ok tt)] ++
    (pre ++ removelast (no_results_tail ts content)) ++ [Called browser_close (Ok tt)]
    = ([Called (chromium_launch headless 50) (Ok tt)]
       ++ [Called (browser_new_context 1250 778 user_agent_string "en-US" true) (Ok tt)]
       ++ [Called context_new_page (Ok tt)] ++ pre) ++ no_results_tail ts content).
  { rewrite Htail at 2. by rewrite <- !app_assoc. }
  rewrite Htrace. split; [done|]. split; [|split; [|done]].
  - rewrite !records_app, Hpre. reflexivity.
  - rewrite !records_app, Hpre. reflexivity.
Qed.

Lemma no_results_diagnostic_witness :
  exists ts content pre,
    trace (Scenario.respond Scenario.no_results) (main (L := CPython.lib) false) 0
    = pre ++ no_results_tail ts content.
Proof.
  destruct (no_results_diagnostic (L := CPython.lib)
              (Scenario.respond Scenario.no_results) false)
    as (ts & content & pre & H & _).
  - intros k. repeat split.
  - intros k sel t. exists "Timeout 30000ms exceeded.". reflexivity.
  - intros k. repeat split; eauto.
  - eauto.
Defined.

(** ** The candidate ranking heuristic *)

Section Ranking.
Context {L : PyLib}.
#[local] Arguments is_scorecard_link : simpl never.

(** Reading the fields of a candidate in the loop never raises. *)
Lemma scan_returns (o : oracle) (results : string) (remaining i n : nat) :
  exists chosen, outcome o (scan results remaining i) n = Ok chosen.
Proof.
  unfold outcome. revert i n.
  induction remaining as [|remaining IH]; intros i n; simpl; [by eauto|].
  destruct (o string n _) as [text|e1]; simpl;
    destruct (o (option string) _ _) as [attr|e2]; simpl;
    match goal with
    | |- context [is_scorecard_link ?h ?t] => destruct (is_scorecard_link h t)
    end; simpl; eauto;
    match goal with
    | |- context [run o (scan results remaining ?j) ?m] =>
        destruct (IH j m) as [chosen Hc]; destruct (run o (scan results remaining j) m);
        simpl in *; subst; eauto
    end.
Qed.

Lemma scan_served (o : oracle) (results : string)
    (cands : list (string * option string)) :
  serves o results cands ->
  forall rest i n,
    drop i cands = rest ->
    outcome o (scan results (length rest) i) n = Ok (first_relevant i rest).
Proof.
  intros Hs. unfold outcome. induction rest as [|[text attr] rest IH];
    intros i n Hdrop; [done|].
  assert (Hi : cands !! i = Some (text, attr)).
  { rewrite <- (Nat.add_0_r i), <- lookup_drop, Hdrop. done. }
  assert (Hdrop' : drop (S i) cands = rest).
  { rewrite (drop_S _ _ _ Hi) in Hdrop. by injection Hdrop. }
  simpl. destruct (Hs n i text attr Hi) as [-> _]. simpl.
  destruct (Hs (S n) i text attr Hi) as [_ ->]. simpl.
  unfold relevant, candidate_href, candidate_title. simpl.
  destruct (is_scorecard_link _ _); simpl; [done|].
  specialize (IH (S i) (S (S n)) Hdrop').
  destruct (run o (scan results (length rest) (S i)) (S (S n))). simpl in *.
  by rewrite IH.
Qed.

Lemma first_relevant_hit (i : nat) (pre post : list (string * option string))
    (c : string * option string) :
  Forall (fun c => relevant c = false) pre ->
  relevant c = true ->
  first_relevant i (pre ++ c :: post)
  = Some {| chosen_index := i + length pre; chosen_href := Some (candidate_href c);
            chosen_title := candidate_title c |}.
Proof.
  intros Hpre Hc. revert i. induction Hpre as [|c' pre Hc' _ IH]; intros i; simpl.
  - by rewrite Hc, Nat.add_0_r.
  - rewrite Hc', IH. by rewrite Nat.add_succ_r.
Qed.

Lemma first_relevant_miss (i : nat) (cands : list (string * option string)) :
  Forall (fun c => relevant c = false) cands -> first_relevant i cands = None.
Proof.
  intros Hall. revert i. induction Hall as [|c cands Hc _ IH]; intros i; simpl; [done|].
  by rewrite Hc.
Qed.

Lemma pick_served (o : oracle) (results : string)
    (cands : list (string * option string)) (n : nat) :
  serves o results cands ->
  outcome o (pick results (length cands)) n =
    Ok match first_relevant 0 cands with
       | Some chosen => Some chosen
       | None =>
           match cands with
           | c :: _ =>
               Some {| chosen_index := 0; chosen_href := snd c;
                       chosen_title := candidate_title c |}
           | [] => None
           end
       end.
Proof.
  intros Hs. unfold pick. rewrite outcome_bind.
  rewrite (scan_served o results cands Hs cands 0 n eq_refl).
  destruct (first_relevant 0 cands) as [chosen|]; [done|].
  destruct cands as [|[text attr] rest]; [done|].
  unfold outcome, fallback_first. simpl.
  match goal with
  | |- context [o string ?k (nth_inner_text results 0)] =>
      destruct (Hs k 0%nat text attr eq_refl) as [-> _]
  end. simpl.
  match goal with
  | |- context [o (option string) ?k (nth_get_attribute results 0 "href")] =>
      destruct (Hs k 0%nat text attr eq_refl) as [_ ->]
  end. done.
Qed.

End Ranking.

(** C2: two result links of which only the second names a trusted domain,
    and only in its title.  The keyword test of the spec takes the second;
    the heuristic finds no match and falls back to the first. *)
Lemma trusted_domain_in_title_ignored :
  let o := Scenario.respond Scenario.domain_in_title in
  let results := Str.join ", " RESULT_LINK_SELECTORS in
  spec_relevant (CPython.lower "https://a.example/x") (CPython.lower "Match report")
  = false
  /\ spec_relevant (CPython.lower "https://b.example/y") (CPython.lower "Cricbuzz live")
     = true
  /\ outcome o (pick (L := CPython.lib) results 2) 0
     = Ok (Some {| chosen_index := 0; chosen_href := Some "https://a.example/x";
                   chosen_title := "Match report" |}).
Proof. vm_compute. done. Qed.

(** C2, as amended: a candidate is relevant when its lower-cased href or
    its lower-cased title contains [scorecard] or [cricket], or when its
    lower-cased href contains [espncricinfo] or [cricbuzz] (the trusted
    domains are looked for in the href only).  On result links that stay
    readable, the heuristic selects the first relevant candidate in
    document order; when none is relevant and the list is not empty it
    selects index 0; when the list is empty it selects nothing, and the run
    prints that no result was found and closes the browser without
    navigating. *)
Theorem pick_first_relevant {L : PyLib} (o : oracle) (results : string)
    (cands : list (string * option string)) (n : nat) :
  serves o results cands ->
  (forall c,
     relevant c = true <->
     Str.contains "scorecard" (str_lower (candidate_href c)) = true
     \/ Str.contains "scorecard" (str_lower (candidate_title c)) = true
     \/ Str.contains "espncricinfo" (str_lower (candidate_href c)) = true
     \/ Str.contains "cricbuzz" (str_lower (candidate_href c)) = true
     \/ Str.contains "cricket" (str_lower (candidate_title c)) = true
     \/ Str.contains "cricket" (str_lower (candidate_href c)) = true)
  /\ (forall pre c post,
        cands = pre ++ c :: post ->
        Forall (fun c' => relevant c' = false) pre ->
        relevant c = true ->
        outcome o (pick results (length cands)) n
        = Ok (Some {| chosen_index := length pre;
                      chosen_href := Some (candidate_href c);
                      chosen_title := candidate_title c |}))
  /\ (forall c rest,
        cands = c :: rest ->
        Forall (fun c' => relevant c' = false) cands ->
        outcome o (pick results (length cands)) n
        = Ok (Some {| chosen_index := 0; chosen_href := snd c;
                      chosen_title := candidate_title c |}))
  /\ (cands = [] ->
      outcome o (pick results (length cands)) n = Ok None
      /\ forall k,
           o nat k (locator_count (Str.join ", " RESULT_LINK_SELECTORS)) = Ok 0%nat ->
           trace o after_results k
           = [Called (locator_count (Str.join ", " RESULT_LINK_SELECTORS)) (Ok 0%nat);
              Printed ["Found result links:"; "0"];
              Printed ["No suitable result found."];
              Called browser_close (o unit (S (S (S k))) browser_close)]).
Proof.
  intros Hs. split; [|split; [|split]].
  - intros c. unfold relevant, is_scorecard_link.
    rewrite !orb_true_iff. tauto.
  - intros pre c post -> Hpre Hc. rewrite (pick_served o results _ n Hs).
    by rewrite first_relevant_hit.
  - intros c rest -> Hall. rewrite (pick_served o results _ n Hs).
    by rewrite first_relevant_miss.
  - intros ->. split; [by rewrite (pick_served o results _ n Hs)|].
    intros k Hcount. unfold trace, after_results. simpl in *. rewrite Hcount. simpl.
    by destruct (o unit (S (S (S k))) browser_close) as [[]|e].
Qed.

Lemma pick_first_relevant_witness :
  let o := Scenario.respond Scenario.domain_in_title in
  let results := Str.join ", " RESULT_LINK_SELECTORS in
  outcome o (pick (L := CPython.lib) results 2) 0
  = Ok (Some {| chosen_index := 0; chosen_href := Some "https://a.example/x";
                chosen_title := "Match report" |}).
Proof.
  intros o results.
  destruct (pick_first_relevant (L := CPython.lib) o results
              [("Match report", Some "https://a.example/x");
               ("Cricbuzz live", Some "https://b.example/y")] 0) as (_ & _ & H & _).
  - intros k [|[|i]] text attr; simpl; intros [= <- <-] || intros [=]; by split.
  - apply (H _ _ eq_refl). repeat constructor.
Defined.

(** ** Extraction failures *)

(** C8: one result link without a keyword whose text cannot be read.  The
    loop degrades the title to the empty string and goes on (here to the
    end of the list); the fallback of lines 144-146 reads the text again
    outside any [try], the exception reaches the handler of line 207, and
    the run ends without navigating to a result and without a snapshot. *)
Lemma fallback_extraction_aborts :
  let o := Scenario.respond Scenario.unreadable_first in
  let results := Str.join ", " RESULT_LINK_SELECTORS in
  outcome o (scan (L := CPython.lib) results 1 0) 0 = Ok None
  /\ outcome o (pick (L := CPython.lib) results 1) 0
     = Raised (Exception "Element is not attached to the DOM")
  /\ In (Printed ["An unexpected error occurred:"; "Element is not attached to the DOM"])
        (trace o (main (L := CPython.lib) false) 0)
  /\ nav_steps (trace o (main (L := CPython.lib) false) 0) = [Goto (search_url QUERY)]
  /\ records (trace o (main (L := CPython.lib) false) 0) = [].
Proof. vm_compute. intuition. Qed.

(** * Further properties *)

(** ** The text cut out by the fallback of the resolver *)

Section Occurrences.
#[local] Arguments Ascii.eqb : simpl never.

Lemma startswith_app (sub s : string) :
  Str.startswith sub s = true -> s = sub +:+ Str.drop (String.length sub) s.
Proof.
  revert s. induction sub as [|a sub IH]; intros [|b s]; simpl; try done.
  destruct (Ascii.eqb_spec a b) as [->|]; [|done].
  intros H. rewrite app_cons_str. f_equal. by apply IH.
Qed.

Lemma startswith_length (sub s : string) :
  Str.startswith sub s = true -> (String.length sub <= String.length s)%nat.
Proof.
  revert s. induction sub as [|a sub IH]; intros [|b s]; simpl; try done; try lia.
  destruct (Ascii.eqb a b); [|done]. intros H%IH. lia.
Qed.

(** An occurrence found by [index_of] splits the string around it. *)
Lemma index_of_split (sub s : string) (i : nat) :
  Str.index_of sub s = Some i ->
  s = Str.take i s +:+ sub +:+ Str.drop (i + String.length sub) s
  /\ (i + String.length sub <= String.length s)%nat.
Proof.
  revert i. induction s as [|b s IH]; intros i.
  - simpl. destruct (Str.startswith sub "") eqn:Hsw; [|done].
    intros [= <-]. split; [by apply startswith_app|].
    exact (startswith_length sub "" Hsw).
  - cbn [Str.index_of]. destruct (Str.startswith sub (String b s)) eqn:Hsw.
    + intros [= <-]. split; [by apply startswith_app|].
      exact (startswith_length sub (String b s) Hsw).
    + destruct (Str.index_of sub s) as [j|]; [|done]. intros [= <-].
      destruct (IH j eq_refl) as [Hs Hlen]. split; [|simpl; lia].
      simpl. rewrite app_cons_str. by f_equal.
Qed.

Lemma take_drop_str (n : nat) (s : string) : Str.take n s +:+ Str.drop n s = s.
Proof.
  revert s. induction n as [|n IH]; intros [|a s]; simpl; try done.
  rewrite app_cons_str. by rewrite IH.
Qed.

(** Before its first occurrence a character does not occur. *)
Lemma index_of_char_first (c : ascii) (s : string) (j : nat) :
  Str.index_of (String c "") s = Some j ->
  Str.index_of (String c "") (Str.take j s) = None
  /\ Str.startswith (String c "") (Str.drop j s) = true.
Proof.
  revert j. induction s as [|b s IH]; intros j; [done|].
  cbn [Str.index_of]. destruct (Str.startswith (String c "") (String b s)) eqn:Hsw.
  - intros [= <-]. done.
  - destruct (Str.index_of (String c "") s) as [k|]; [|done]. intros [= <-].
    destruct (IH k eq_refl) as [Hnone Hstart]. split; [|done].
    cbn [Str.take Str.index_of]. simpl in Hsw.
    assert (Hsw' : Str.startswith (String c "") (String b (Str.take k s)) = false).
    { simpl. by destruct (Ascii.eqb c b). }
    by rewrite Hsw', Hnone.
Qed.

End Occurrences.

(** X1: when [u=] occurs in [href], lines 41-47 cut [href] into the text
    before the first [u=], the marker [u=], the extracted value and a rest:
    the value contains no [&], and the rest is empty or starts with
    [&]. *)
Theorem u_substring_split (href : string) :
  Str.contains "u=" href = true ->
  exists pre post,
    href = pre +:+ "u=" +:+ u_substring href +:+ post
    /\ Str.find "u=" href = Z.of_nat (String.length pre)
    /\ Str.contains "&" (u_substring href) = false
    /\ (post = "" \/ Str.startswith "&" post = true).
Proof.
  unfold Str.contains, u_substring, Str.find.
  destruct (Str.index_of "u=" href) as [i|] eqn:Hi; [intros _|done].
  destruct (index_of_split _ _ _ Hi) as [Hsplit Hlen]. simpl in Hlen.
  assert (Hrest : Str.slice_from href (Z.of_nat i + 2) = Str.drop (i + 2) href).
  { unfold Str.slice_from.
    replace (Z.of_nat i + 2) with (Z.of_nat (i + 2)) by lia.
    by rewrite clamp_nat. }
  rewrite Hrest. set (rest := Str.drop (i + 2) href) in *.
  assert (Hpre : String.length (Str.take i href) = i).
  { clear -Hlen. revert href Hlen. induction i as [|i IH]; intros [|a s]; simpl; try lia.
    intros H. rewrite IH; [done | lia]. }
  destruct (Str.index_of "&" rest) as [j|] eqn:Hj.
  - destruct (index_of_char_first _ _ _ Hj) as [Hnone Hstart].
    destruct (index_of_split _ _ _ Hj) as [_ Hjlen]. simpl in Hjlen.
    destruct (Z.eqb_spec (Z.of_nat j) (-1)) as [Hneg|_]; [lia|]. simpl.
    assert (Hval : Str.slice_to rest (Z.of_nat j) = Str.take j rest).
    { unfold Str.slice_to. rewrite clamp_nat; [done | lia]. }
    rewrite Hval. exists (Str.take i href), (Str.drop j rest).
    rewrite take_drop_str, Hpre, Hnone.
    split; [exact Hsplit|]. split; [done|]. split; [done|]. by right.
  - simpl. exists (Str.take i href), "".
    rewrite app_empty_r, Hpre.
    split; [exact Hsplit|]. split; [done|]. split; [by rewrite Hj|]. by left.
Qed.

Lemma u_substring_split_witness :
  exists pre post,
    "/ck/a?p=1&u=abc&n=2" = pre +:+ "u=" +:+ u_substring "/ck/a?p=1&u=abc&n=2" +:+ post
    /\ Str.find "u=" "/ck/a?p=1&u=abc&n=2" = Z.of_nat (String.length pre)
    /\ Str.contains "&" (u_substring "/ck/a?p=1&u=abc&n=2") = false
    /\ (post = "" \/ Str.startswith "&" post = true).
Proof. apply (u_substring_split "/ck/a?p=1&u=abc&n=2"). reflexivity. Defined.

(** ** The selector resolution engine on other failures *)

(** X2: only a timeout counts as "no match".  When the waits for the
    selectors of [pre] time out and the wait for [sel] raises another
    exception, the engine raises that exception and waits for nothing of
    [post]. *)
Theorem wait_for_results_error (o : oracle) (pre post : list string)
    (sel msg : string) (n : nat) :
  (forall k s t, s ∈ pre ->
     exists m, o unit k (page_wait_for_selector s t) = Raised (PlaywrightTimeoutError m)) ->
  (forall k t, o unit k (page_wait_for_selector sel t) = Raised (Exception msg)) ->
  outcome o (wait_for_results (pre ++ sel :: post)) n = Raised (Exception msg)
  /\ attempts (trace o (wait_for_results (pre ++ sel :: post)) n)
     = (fun s => (s, 30000)) <$> (pre ++ [sel]).
Proof.
  intros Hpre Hsel. unfold outcome, trace. revert n.
  induction pre as [|s pre IH]; intros n; simpl.
  - by rewrite Hsel.
  - destruct (Hpre n s 30000) as [m ->]; [by left|]. simpl.
    destruct (IH (fun k s' t Hin => Hpre k s' t (list_elem_of_further _ _ _ Hin)) (S n))
      as [Hout Hatt].
    destruct (run o _ (S n)) as [t2 r]. simpl in *. by rewrite Hout, Hatt.
Qed.

Lemma wait_for_results_error_witness :
  let o : oracle := fun X _ c =>
    match c in call X return result X with
    | page_wait_for_selector sel _ =>
        if String.eqb sel "#a" then Scenario.timeout_error
        else Raised (Exception "Target page has been closed")
    | c' => Scenario.respond Scenario.base _ 0%nat c'
    end in
  outcome o (wait_for_results ["#a"; "#b"; "#c"]) 0
  = Raised (Exception "Target page has been closed")
  /\ attempts (trace o (wait_for_results ["#a"; "#b"; "#c"]) 0)
     = [("#a", 30000); ("#b", 30000)].
Proof.
  intros o.
  apply (wait_for_results_error o ["#a"] ["#c"] "#b" "Target page has been closed" 0).
  - intros k s t Hs. apply list_elem_of_singleton in Hs as ->.
    exists "Timeout 30000ms exceeded.". reflexivity.
  - intros k t. reflexivity.
Defined.

(** ** The consent handler *)



(** ** Direct navigation *)

(** X4: for an absolute target the navigator makes one [page.goto] to it,
    with [networkidle] and 45000 ms, and nothing else: no scroll, no click
    and no script, also after a timeout, which is only reported; any other
    exception of [page.goto] is raised further. *)
Theorem navigate_absolute (o : oracle) (results : string) (c : choice)
    (target : string) (n : nat) :
  is_absolute (Some target) = true ->
  trace o (navigate results c (Some target)) n
  = Called (page_goto target "networkidle" 45000)
           (o unit n (page_goto target "networkidle" 45000))
    :: match o unit n (page_goto target "networkidle" 45000) with
       | Raised (PlaywrightTimeoutError _) =>
           [Printed ["Navigation timeout on direct target; continuing to try clicking the link."]]
       | _ => []
       end
  /\ outcome o (navigate results c (Some target)) n
     = match o unit n (page_goto target "networkidle" 45000) with
       | Raised (Exception msg) => Raised (Exception msg)
       | _ => Ok tt
       end.
Proof.
  intros Habs. unfold trace, outcome, navigate. rewrite Habs. simpl.
  by destruct (o unit n _) as [[]|[m|m]].
Qed.

Lemma navigate_absolute_witness :
  let c := {| chosen_index := 0; chosen_href := Some "https://a.example/x";
              chosen_title := "t" |} in
  outcome (Scenario.respond Scenario.base)
          (navigate "a" c (Some "https://a.example/x")) 0 = Ok tt.
Proof.
  intros c.
  destruct (navigate_absolute (Scenario.respond Scenario.base) "a" c
              "https://a.example/x" 0 eq_refl) as [_ H].
  exact H.
Defined.

(** ** The scan over the result links *)

Section Scan.
Context {L : PyLib}.
#[local] Arguments is_scorecard_link : simpl never.

(** What the loop of lines 120-139 returns, for every behaviour of the
    page. *)
Lemma scan_outcome (o : oracle) (results : string) (remaining i n : nat) :
  exists chosen,
    outcome o (scan results remaining i) n = Ok chosen
    /\ forall c, chosen = Some c ->
         (i <= chosen_index c < i + remaining)%nat
         /\ exists href,
              chosen_href c = Some href
              /\ is_scorecard_link (str_lower href) (str_lower (chosen_title c)) = true.
Proof.
  unfold outcome. revert i n.
  induction remaining as [|remaining IH]; intros i n; simpl.
  { exists None. by split. }
  assert (Hstep : forall title href k,
    exists chosen,
      (run o (if is_scorecard_link (str_lower href) (str_lower title)
              then Ret (Some {| chosen_index := i; chosen_href := Some href;
                                chosen_title := title |})
              else scan results remaining (S i)) k).2 = Ok chosen
      /\ forall c, chosen = Some c ->
           (i <= chosen_index c < i + S remaining)%nat
           /\ exists href',
                chosen_href c = Some href'
                /\ is_scorecard_link (str_lower href') (str_lower (chosen_title c)) = true).
  { intros title href k.
    destruct (is_scorecard_link (str_lower href) (str_lower title)) eqn:Hlink.
    - eexists. split; [reflexivity|]. intros c [= <-]. simpl.
      split; [lia | by eauto].
    - destruct (IH (S i) k) as (chosen & Hout & Hc). exists chosen.
      split; [done|]. intros c Hchosen. destruct (Hc c Hchosen) as [Hidx Hrest].
      split; [lia | done]. }
  destruct (o string n _) as [text|e1]; simpl;
    destruct (o (option string) _ _) as [attr|e2]; simpl;
    match goal with
    | |- context [run o (if is_scorecard_link (str_lower ?h) (str_lower ?t) then _ else _) ?k] =>
        destruct (Hstep t h k) as (chosen & Hout & Hc);
        destruct (run o (if is_scorecard_link (str_lower h) (str_lower t) then _ else _) k);
        simpl in *; eauto
    end.
Qed.

(** X5: whatever the page does, the loop of lines 120-139 does not raise;
    a result it chooses has an index among the ones scanned, an href that
    is a string (never [None]), and passes the keyword test of lines
    133-135 on its lower-cased href and title. *)
Theorem scan_sound (o : oracle) (results : string) (remaining i n : nat) :
  exists chosen,
    outcome o (scan results remaining i) n = Ok chosen
    /\ forall c, chosen = Some c ->
         (i <= chosen_index c < i + remaining)%nat
         /\ exists href,
              chosen_href c = Some href
              /\ is_scorecard_link (str_lower href) (str_lower (chosen_title c)) = true.
Proof.
  destruct (scan_outcome o results remaining i n) as (chosen & Hout & Hc).
  exists chosen. split; [exact Hout|]. intros c Hchosen.
  destruct (Hc c Hchosen) as (Hidx & href & Hhref & Hlink).
  split; [lia|]. by exists href.
Qed.

(** X6: a result chosen by lines 120-151, by the loop or by the fallback,
    has an index below the number of result links, so that
    [results.nth(chosen_index)] names one of them. *)
Theorem pick_index_in_range (o : oracle) (results : string) (count n : nat)
    (c : choice) :
  outcome o (pick results count) n = Ok (Some c) ->
  (chosen_index c < count)%nat.
Proof.
  unfold pick. rewrite outcome_bind.
  destruct (scan_outcome o results count 0 n) as (chosen & -> & Hc).
  destruct chosen as [c'|]; simpl.
  - intros [= <-]. destruct (Hc c' eq_refl) as [Hidx _]. lia.
  - unfold outcome. destruct (Nat.ltb_spec 0 count) as [Hpos|_]; [|done]. simpl.
    destruct (o string _ _) as [text|e1]; simpl; [|done].
    destruct (o (option string) _ _) as [attr|e2]; simpl; [|done].
    by intros [= <-].
Qed.




End Scan.


Lemma pick_index_in_range_witness :
  (chosen_index {| chosen_index := 0;
                   chosen_href := Some "https://www.cricbuzz.com/live-cricket-scorecard/1";
                   chosen_title := "IND vs SA Final - Full Scorecard" |} < 1)%nat.
Proof.
  apply (pick_index_in_range (L := CPython.lib) (Scenario.respond Scenario.base)
           (Str.join ", " RESULT_LINK_SELECTORS) 1 0).
  by vm_compute.
Defined.

(** ** Programs that leave a view empty *)

Section Blind.
Context {B : Type} (v : event -> option B).

Lemma omap_app_view (t1 t2 : list event) : omap v (t1 ++ t2) = omap v t1 ++ omap v t2.
Proof. apply omap_app. Qed.

Lemma blind_ret {A} (a : A) : blind v (Ret a).
Proof. done. Qed.

Lemma blind_raise {A} (e : exn) : blind v (@Raise A e).
Proof. done. Qed.

Lemma blind_bind {A C} (p : prog A) (f : A -> prog C) :
  blind v p -> (forall a, blind v (f a)) -> blind v (bind p f).
Proof.
  intros Hp Hf o n. rewrite trace_bind, omap_app_view, (Hp o n).
  destruct (outcome o p n); [apply Hf | done].
Qed.

Lemma blind_catch {A} (p : prog A) (h : exn -> prog A) :
  blind v p -> (forall e, blind v (h e)) -> blind v (catch p h).
Proof.
  intros Hp Hh o n. rewrite trace_catch, omap_app_view, (Hp o n).
  destruct (outcome o p n); [done | apply Hh].
Qed.

Lemma blind_catch_timeout {A} (p h : prog A) :
  blind v p -> blind v h -> blind v (catch_timeout p h).
Proof.
  intros Hp Hh. apply blind_catch; [done|]. intros [m|m]; [done | apply blind_raise].
Qed.

Lemma blind_call {X} (c : call X) :
  (forall r, v (Called c r) = None) -> blind v (call_ c).
Proof.
  intros Hc o n. rewrite trace_call. cbn [omap list_omap]. by rewrite Hc.
Qed.

Lemma blind_print (args : list string) :
  v (Printed args) = None -> blind v (print args).
Proof.
  intros Hp o n. unfold trace. cbn [run print fst omap list_omap]. by rewrite Hp.
Qed.

Lemma blind_lift {A} (r : result A) : blind v (lift r).
Proof. by destruct r. Qed.

End Blind.

Create HintDb blind.
#[local] Hint Resolve blind_ret blind_raise blind_bind blind_catch
  blind_catch_timeout blind_lift : blind.
#[local] Hint Extern 1 (blind _ (call_ _)) => (apply blind_call; reflexivity) : blind.
#[local] Hint Extern 1 (blind _ (print _)) => (apply blind_print; reflexivity) : blind.

Lemma blind_snapshot_nav : blind nav_step_of snapshot.
Proof. unfold snapshot. auto 30 with blind. Qed.

(** ** From the chosen result to the navigation *)

(** The resolver on the value of line 157 always returns. *)
Lemma extract_bing_redirect_value_returns {L : PyLib} (href : option string) :
  exists target, extract_bing_redirect_value href = Ok target.
Proof.
  destruct href as [h|]; simpl; [|by eauto].
  destruct (decide (h = "")) as [->|Hne]; [by eauto|].
  rewrite (extract_nonempty h Hne).
  destruct (urlparse h) as [parsed|e]; simpl; [|by eauto].
  destruct (u_param _); simpl; [by eauto|].
  destruct (Str.contains "u=" h); simpl; by eauto.
Qed.

(** The steps of the element interaction. *)
Lemma click_or_script_steps (o : oracle) (results : string) (c : choice) (n : nat) :
  exists scrolled clicked,
    nav_steps (trace o (click_or_script results c) n)
    = Scroll (chosen_index c) scrolled
      :: (if scrolled then [Click (chosen_index c) clicked] else [])
      ++ (if scrolled && clicked then [] else script_step (chosen_href c)).
Proof.
  unfold trace, click_or_script. next_call o.
  - next_call o.
    + by exists true, true.
    + exists true, false. destruct (chosen_href c) as [href|]; simpl; [|done].
      destruct (Str.truthy href); simpl; [|done]. by next_call o.
  - exists false, false. destruct (chosen_href c) as [href|]; simpl; [|done].
    destruct (Str.truthy href); simpl; [|done]. by next_call o.
Qed.

(** X8: after a result is chosen, the navigation goes by [page.goto]
    exactly when the resolved target of line 157 is an absolute URL, and
    then once, to the resolved target and not to the raw href, with no
    element interaction; otherwise there is no [page.goto], and the steps
    are those of the element interaction on the chosen link, with the raw
    href for the script navigation.  The snapshot adds no navigation. *)
Theorem visit_navigation {L : PyLib} (o : oracle) (results : string) (c : choice)
    (n : nat) :
  exists target,
    extract_bing_redirect_value (chosen_href c) = Ok target
    /\ if is_absolute target then
         nav_steps (trace o (visit results c) n) = [Goto (py_str target)]
       else
         exists scrolled clicked,
           nav_steps (trace o (visit results c) n)
           = Scroll (chosen_index c) scrolled
             :: (if scrolled then [Click (chosen_index c) clicked] else [])
             ++ (if scrolled && clicked then [] else script_step (chosen_href c)).
Proof.
  destruct (extract_bing_redirect_value_returns (chosen_href c)) as [target Htarget].
  exists target. split; [done|].
  assert (Hvisit : nav_steps (trace o (visit results c) n)
                   = nav_steps (trace o (navigate results c target) (S (S (S n))))).
  { assert (Heq : trace o (visit results c) n
                  = Printed ["Chosen result #" +:+ pretty (chosen_index c + 1)%nat
                             +:+ ": " +:+ chosen_title c]
                    :: Printed ["Raw href:"; py_str (chosen_href c)]
                    :: Printed ["Resolved target:"; py_str target]
                    :: trace o (navigate results c target >> snapshot) (S (S (S n)))).
    { unfold visit, trace. rewrite Htarget. cbn [lift bind print run].
      by destruct (run o _ (S (S (S n)))). }
    rewrite Heq. unfold nav_steps. cbn [omap list_omap nav_step_of].
    rewrite trace_bind, omap_app.
    destruct (outcome o (navigate results c target) (S (S (S n))));
      [|by rewrite app_nil_r].
    by rewrite (blind_snapshot_nav o), app_nil_r. }
  rewrite Hvisit. destruct (is_absolute target) eqn:Habs.
  - destruct target as [t|]; [|done]. unfold navigate, trace. rewrite Habs. simpl.
    by destruct (o unit (S (S (S n))) _) as [[]|[m|m]].
  - unfold navigate. rewrite Habs. apply click_or_script_steps.
Qed.

Lemma visit_navigation_witness :
  exists target,
    extract_bing_redirect_value (L := CPython.lib)
      (Some "https://www.bing.com/ck/a?u=https%3A%2F%2Fa.example%2Fx") = Ok target
    /\ is_absolute target = true.
Proof.
  destruct (visit_navigation (L := CPython.lib) (Scenario.respond Scenario.base) "a"
              {| chosen_index := 0;
                 chosen_href := Some "https://www.bing.com/ck/a?u=https%3A%2F%2Fa.example%2Fx";
                 chosen_title := "t" |} 0) as (target & Htarget & _).
  exists target. split; [exact Htarget|].
  simpl in Htarget. vm_compute in Htarget. by injection Htarget as <-.
Defined.

(** ** The browser session *)

Lemma outcome_main_handlers {L : PyLib} (o : oracle) (n : nat) :
  outcome o (catch main_try main_except) n = Ok tt.
Proof.
  rewrite outcome_catch. by destruct (outcome o main_try n) as [[]|[m|m]].
Qed.

Lemma trace_main_handlers {L : PyLib} (o : oracle) (n : nat) :
  trace o (catch main_try main_except) n
  = trace o main_try n
    ++ match outcome o main_try n with
       | Ok _ => []
       | Raised e => [Printed [handler_label e; exn_str e]]
       end.
Proof.
  rewrite trace_catch. by destruct (outcome o main_try n) as [[]|[m|m]].
Qed.

(** X9: once the browser, its context and its page exist, every run of
    [main] ends with a call of [browser.close], whatever happens in
    between; an exception raised in the body of the [try] is reported
    under the label of its class just before that call and goes no
    further: [main] raises only if that last [browser.close] does. *)
Theorem main_closes_browser {L : PyLib} (o : oracle) (headless : bool) :
  o unit 0%nat (chromium_launch headless 50) = Ok tt ->
  o unit 1%nat (browser_new_context 1250 778 user_agent_string "en-US" true) = Ok tt ->
  o unit 2%nat context_new_page = Ok tt ->
  exists closed : result unit,
    trace o (main headless) 0
    = [Called (chromium_launch headless 50) (Ok tt);
       Called (browser_new_context 1250 778 user_agent_string "en-US" true) (Ok tt);
       Called context_new_page (Ok tt)]
      ++ trace o main_try 3
      ++ match outcome o main_try 3 with
         | Ok _ => []
         | Raised e => [Printed [handler_label e; exn_str e]]
         end
      ++ [Called browser_close closed]
    /\ outcome o (main headless) 0
       = match closed with
         | Ok _ => Ok tt
         | Raised e => Raised e
         end.
Proof.
  intros Hlaunch Hcontext Hpage. unfold main, trace, outcome.
  assert (Hcall : forall (c : call unit) k,
            o unit k c = Ok tt -> run o (call_ c) k = ([Called c (Ok tt)], Ok tt)).
  { intros c k Hc. by rewrite run_call, Hc. }
  rewrite (run_seq (Hcall _ _ Hlaunch)). unfold trace, outcome.
  rewrite (run_seq (Hcall _ _ Hcontext)). unfold trace, outcome.
  rewrite (run_seq (Hcall _ _ Hpage)). unfold trace, outcome.
  cbn [length Nat.add]. rewrite run_finally.
  pose proof (outcome_main_handlers o 3) as Hout.
  pose proof (trace_main_handlers o 3) as Htr.
  unfold outcome, trace in Hout, Htr.
  destruct (run o (catch main_try main_except) 3) as [body r]. simpl in Hout, Htr.
  subst r. rewrite run_call. cbn [fst snd].
  exists (o unit (3 + length body)%nat browser_close).
  split.
  - rewrite Htr. by rewrite <- !app_assoc.
  - by destruct (o unit (3 + length body)%nat browser_close) as [[]|e].
Qed.

Lemma main_closes_browser_witness :
  exists closed : result unit,
    outcome (Scenario.respond Scenario.unreadable_first) (main (L := CPython.lib) false) 0
    = match closed with
      | Ok _ => Ok tt
      | Raised e => Raised e
      end.
Proof.
  destruct (main_closes_browser (L := CPython.lib)
              (Scenario.respond Scenario.unreadable_first) false eq_refl eq_refl eq_refl)
    as (closed & _ & Hout).
  by exists closed.
Defined.

(** ** The order of the records *)

Section RecordsWithin.
Context (P : list event -> Prop) (Hnil : P []).

Lemma within_quiet {A} (p : prog A) : quiet p -> records_within P p.
Proof. intros Hp o n. by rewrite Hp. Qed.

Lemma within_bind {A B} (p : prog A) (f : A -> prog B) :
  quiet p -> (forall a, records_within P (f a)) -> records_within P (bind p f).
Proof.
  intros Hp Hf o n. rewrite trace_bind, records_app, (Hp o n).
  destruct (outcome o p n) as [a|e]; [apply Hf | exact Hnil].
Qed.

Lemma within_catch {A} (p : prog A) (h : exn -> prog A) :
  records_within P p -> (forall e, quiet (h e)) -> records_within P (catch p h).
Proof.
  intros Hp Hh o n. rewrite trace_catch, records_app.
  destruct (outcome o p n) as [a|e]; simpl; rewrite ?(Hh _ o), app_nil_r; apply Hp.
Qed.

Lemma within_finally {A} (p : prog A) (c : prog unit) :
  records_within P p -> quiet c -> records_within P (finally p c).
Proof.
  intros Hp Hc o n. rewrite trace_finally, records_app, (Hc o), app_nil_r. apply Hp.
Qed.

End RecordsWithin.

Lemma orderly_nil : orderly [].
Proof. left. apply prefix_nil. Qed.

Lemma orderly_snapshot : records_within orderly snapshot.
Proof.
  intros o n. unfold trace, snapshot, catch_timeout.
  next_call o; [| destruct r; simpl];
    repeat next_call o; left; eexists; reflexivity.
Qed.

Lemma orderly_no_results_dump : records_within orderly no_results_dump.
Proof.
  intros o n. unfold trace, no_results_dump.
  repeat next_call o;
    first [ right; eexists; reflexivity | left; eexists; reflexivity ].
Qed.

(** X10: in every run of [main] the clock reads, screenshots, file opens,
    file writes and closing reports come in the order of one snapshot
    (clock, screenshot, open, write, report) or of one diagnostic dump
    (clock, open, write), possibly cut short: no run reads the clock
    twice, takes two screenshots or opens two files, and no file is
    opened before the clock is read, nor, on the snapshot path, before the
    screenshot is taken. *)
Theorem main_records_orderly {L : PyLib} (o : oracle) (headless : bool) :
  orderly (records (trace o (main headless) 0)).
Proof.
  assert (Hvisit : forall results c, records_within orderly (visit results c)).
  { intros results c. unfold visit.
    apply within_bind; [exact orderly_nil | apply quiet_print; reflexivity|]. intros _.
    apply within_bind; [exact orderly_nil | auto with quiet|]. intros _.
    apply within_bind; [exact orderly_nil | apply quiet_lift|]. intros target.
    apply within_bind; [exact orderly_nil | auto with quiet|]. intros _.
    apply within_bind; [exact orderly_nil | apply quiet_navigate|]. intros _.
    apply orderly_snapshot. }
  assert (Hafter : records_within orderly after_results).
  { unfold after_results.
    apply within_bind; [exact orderly_nil | auto with quiet|]. intros count.
    apply within_bind; [exact orderly_nil | auto with quiet|]. intros _.
    apply within_bind; [exact orderly_nil | apply quiet_pick|]. intros [c|].
    - apply Hvisit.
    - apply within_quiet; [exact orderly_nil | auto with quiet]. }
  assert (Htry : records_within orderly main_try).
  { unfold main_try.
    apply within_bind; [exact orderly_nil | auto with quiet|]. intros _.
    apply within_bind; [exact orderly_nil | auto with quiet|]. intros _.
    apply within_bind; [exact orderly_nil | |].
    { apply quiet_catch; [apply quiet_consent_loop | auto with quiet]. }
    intros _.
    apply within_bind; [exact orderly_nil | apply quiet_wait_for_results|].
    intros found. destruct found; simpl; [apply Hafter | apply orderly_no_results_dump]. }
  unfold main.
  apply within_bind; [exact orderly_nil | auto with quiet|]. intros _.
  apply within_bind; [exact orderly_nil | auto with quiet|]. intros _.
  apply within_bind; [exact orderly_nil | auto with quiet|]. intros _.
  apply within_finally; [|auto with quiet].
  apply within_catch; [exact Htry|].
  intros [msg|msg]; simpl; auto with quiet.
Qed.

(** ** The search URL has no space *)

Section Characters.
#[local] Arguments Ascii.eqb : simpl never.

Lemma contains_char_app (c : ascii) (a b : string) :
  Str.contains (String c "") (a +:+ b)
  = Str.contains (String c "") a || Str.contains (String c "") b.
Proof.
  unfold Str.contains. induction a as [|x a IH].
  - rewrite app_nil_l_str. simpl. by destruct (Str.index_of (String c "") b).
  - rewrite app_cons_str. simpl. destruct (Ascii.eqb c x); [done|].
    destruct (Str.index_of (String c "") (a +:+ b)),
             (Str.index_of (String c "") a),
             (Str.index_of (String c "") b); simpl in *; congruence.
Qed.

Lemma replace_removes (old new : ascii) (s : string) :
  old <> new -> Str.contains (String old "") (Str.replace old new s) = false.
Proof.
  intros Hne. unfold Str.contains. induction s as [|a s IH]; [done|].
  simpl. destruct (Ascii.eqb_spec a old) as [->|Ha].
  - destruct (Ascii.eqb_spec old new) as [|_]; [done|].
    by destruct (Str.index_of (String old "") (Str.replace old new s)).
  - destruct (Ascii.eqb_spec old a) as [->|_]; [done|].
    by destruct (Str.index_of (String old "") (Str.replace old new s)).
Qed.

End Characters.

(** X11: whatever the query, the search URL of line 66 contains no space,
    and it is as long as the endpoint and the query together. *)
Theorem search_url_no_space (query : string) :
  Str.contains " " (search_url query) = false
  /\ String.length (search_url query)
     = (String.length "https://www.bing.com/search?q=" + String.length query)%nat.
Proof.
  unfold search_url. split.
  - rewrite contains_char_app, replace_removes by done. reflexivity.
  - by rewrite length_app, replace_length.
Qed.

(** ** Wrapped links with CPython's [urllib] *)

Section Wrapped.
#[local] Arguments Ascii.eqb : simpl never.















End Wrapped.



(** ** The wait before the snapshot *)

(** X13: a timeout of the wait for the network to be idle (line 182) does
    not stop the snapshot: when the calls after it work, the snapshot is
    complete whether that wait returns or times out.  Any other exception
    of that wait ends the snapshot before the clock is read, with nothing
    recorded. *)
Theorem snapshot_after_idle_wait (o : oracle) (n : nat) :
  snapshot_works o ->
  match o unit n (page_wait_for_load_state "networkidle" 30000) with
  | Raised (Exception msg) =>
      outcome o snapshot n = Raised (Exception msg)
      /\ trace o snapshot n
         = [Called (page_wait_for_load_state "networkidle" 30000)
                   (Raised (Exception msg))]
  | _ =>
      outcome o snapshot n = Ok tt
      /\ exists ts content,
           records (trace o snapshot n) = snapshot_records ts content
  end.
Proof.
  intros Hw. unfold outcome, trace, snapshot, catch_timeout. simpl.
  destruct (o unit n (page_wait_for_load_state "networkidle" 30000)) as [[]|[m|m]];
    simpl; [| |done];
    repeat match goal with
    | |- context [o ?X ?k ?c] =>
        let ts := fresh "ts" in
        let title := fresh "title" in
        let url := fresh "url" in
        let content := fresh "content" in
        destruct (Hw k) as (?H & [ts ?H] & ?H & [title ?H] & [url ?H] & ?H
                            & [content ?H] & ?H);
        progress (repeat match goal with
                         | E : _ = Ok _ |- _ => rewrite E
                         | E : forall _, _ = Ok _ |- _ => rewrite E
                         | E : forall _ _, _ = Ok _ |- _ => rewrite E
                         end);
        simpl
    end;
    (split; [reflexivity|]; eexists _, _; reflexivity).
Qed.

Lemma snapshot_after_idle_wait_witness :
  outcome (Scenario.respond Scenario.base) snapshot 0 = Ok tt.
Proof.
  pose proof (snapshot_after_idle_wait (Scenario.respond Scenario.base) 0) as H.
  simpl in H. apply H.
  intros k. repeat split; eauto.
Defined.

(** ** Before the session exists *)

(** X14: the launch of the browser and the creation of its context and
    page (lines 55-63) are outside the [try]: when one of them raises,
    [main] raises that exception at once, makes no further call, prints
    nothing and does not call [browser.close]. *)
Theorem main_setup_failure {L : PyLib} (o : oracle) (headless : bool) (e : exn) :
  (o unit 0%nat (chromium_launch headless 50) = Raised e ->
   run o (main headless) 0
   = ([Called (chromium_launch headless 50) (Raised e)], Raised e))
  /\ (o unit 0%nat (chromium_launch headless 50) = Ok tt ->
      o unit 1%nat (browser_new_context 1250 778 user_agent_string "en-US" true)
      = Raised e ->
      run o (main headless) 0
      = ([Called (chromium_launch headless 50) (Ok tt);
          Called (browser_new_context 1250 778 user_agent_string "en-US" true)
                 (Raised e)], Raised e))
  /\ (o unit 0%nat (chromium_launch headless 50) = Ok tt ->
      o unit 1%nat (browser_new_context 1250 778 user_agent_string "en-US" true)
      = Ok tt ->
      o unit 2%nat context_new_page = Raised e ->
      run o (main headless) 0
      = ([Called (chromium_launch headless 50) (Ok tt);
          Called (browser_new_context 1250 778 user_agent_string "en-US" true) (Ok tt);
          Called context_new_page (Raised e)], Raised e)).
Proof.
  unfold main. rewrite !run_bind, !run_call. cbn [length Nat.add].
  split; [|split].
  - by intros ->.
  - intros -> Hc. cbn [length Nat.add]. by rewrite run_bind, run_call, Hc.
  - intros -> Hc Hp. cbn [length Nat.add]. rewrite run_bind, run_call, Hc.
    cbn [length Nat.add]. by rewrite run_bind, run_call, Hp.
Qed.

Lemma main_setup_failure_witness :
  let o : oracle := fun X k c =>
    match c in call X return result X with
    | chromium_launch _ _ => Raised (Exception "Executable doesn't exist")
    | c' => Scenario.respond Scenario.base _ k c'
    end in
  run o (main (L := CPython.lib) true) 0
  = ([Called (chromium_launch true 50) (Raised (Exception "Executable doesn't exist"))],
     Raised (Exception "Executable doesn't exist")).
Proof.
  intros o.
  destruct (main_setup_failure (L := CPython.lib) o true
              (Exception "Executable doesn't exist")) as [H _].
  apply H. reflexivity.
Defined.
